(** * xks: a wrapper around the Azure CLI for AKS clusters (aks.go)

    The source file holds several variants of one program.  Two of them are
    modelled here:

    - [Cli]: the cobra variant whose operations shell out to the external
      CLI (it occurs twice in the file, character for character);
    - [Sdk]: the variant that keeps the active subscription in a
      process-global variable and lists the directory with os.ReadDir.

    The remaining variant (no cobra commands; its setSubscription assigns
    names it does not declare) shares loadCredentials, authenticate,
    getSubscriptionID and discoverFiles with [Cli], but for the three
    assignments of loadCredentials, and is not modelled.

    Go's packages strings, path/filepath, os and os/exec are the environment
    of the program: their functions are modelled first, then the program's
    own functions on top of them, in a state monad over the program's
    globals and the world outside of the process. *)

From Stdlib Require Import String Ascii List Bool Arith Lia DecimalString.
Import ListNotations.
Open Scope list_scope.
Open Scope string_scope.

Set Implicit Arguments.

(** ** Go's strings package *)

Module Strings.

(** s[n:] for n within the string. *)
Fixpoint skip (n : nat) (s : string) : string :=
  match n, s with
  | 0, _ => s
  | S n', String _ s' => skip n' s'
  | S _, EmptyString => EmptyString
  end.

(** s[:n] for n within the string. *)
Fixpoint take (n : nat) (s : string) : string :=
  match n, s with
  | 0, _ => EmptyString
  | S n', String c s' => String c (take n' s')
  | S _, EmptyString => EmptyString
  end.

Definition HasPrefix (s pre : string) : bool := String.prefix pre s.

(** strings.Index: the position of the first instance of substr, None
    where Go answers -1. *)
Fixpoint Index (s substr : string) : option nat :=
  if HasPrefix s substr then Some 0
  else match s with
       | EmptyString => None
       | String _ s' => option_map S (Index s' substr)
       end.

Definition Contains (s substr : string) : bool :=
  match Index s substr with Some _ => true | None => false end.

(** strings.Count for a separator that is not empty: the loop
    [i := Index(s, substr); if i == -1 return n; n++; s = s[i+len(substr):]],
    which runs at most once per byte of s. *)
Fixpoint count_loop (fuel : nat) (s substr : string) : nat :=
  match fuel with
  | 0 => 0
  | S fuel' =>
      match Index s substr with
      | None => 0
      | Some i => S (count_loop fuel' (skip (i + String.length substr) s) substr)
      end
  end.

Definition Count (s substr : string) : nat :=
  count_loop (String.length s) s substr.

(** The loop of genSplit: [for i < n { m := Index(s, sep); if m < 0 break;
    a[i] = s[:m]; s = s[m+len(sep):]; i++ }; a[i] = s; return a[:i+1]]. *)
Fixpoint split_loop (n : nat) (s sep : string) : list string :=
  match n with
  | 0 => [s]
  | S n' =>
      match Index s sep with
      | None => [s]
      | Some m => take m s :: split_loop n' (skip (m + String.length sep) s) sep
      end
  end.

(** One string per byte: what Split does for an empty separator on ASCII
    text (Go cuts after each UTF-8 sequence).  The program never passes an
    empty separator. *)
Fixpoint explode (s : string) : list string :=
  match s with
  | EmptyString => []
  | String c s' => String c EmptyString :: explode s'
  end.

(** strings.Split(s, sep) = genSplit(s, sep, 0, -1): n is Count(s, sep) + 1,
    capped at len(s) + 1, and the loop runs while i < n - 1. *)
Definition Split (s sep : string) : list string :=
  if (sep =? EmptyString)%string then explode s
  else
    let n := Count s sep + 1 in
    let n := if Nat.ltb (String.length s + 1) n then String.length s + 1 else n in
    split_loop (n - 1) s sep.

(** strings.Join. *)
Definition Join (elems : list string) (sep : string) : string :=
  String.concat sep elems.

(** White space as unicode.IsSpace has it, by UTF-8 encoding: the six
    ASCII characters, U+0085, U+00A0, U+1680, U+2000..U+200A, U+2028,
    U+2029, U+202F, U+205F and U+3000. *)
Definition space_encodings : list (list nat) :=
  [ [9]; [10]; [11]; [12]; [13]; [32];
    [194; 133]; [194; 160]; [225; 154; 128];
    [226; 128; 128]; [226; 128; 129]; [226; 128; 130]; [226; 128; 131];
    [226; 128; 132]; [226; 128; 133]; [226; 128; 134]; [226; 128; 135];
    [226; 128; 136]; [226; 128; 137]; [226; 128; 138];
    [226; 128; 168]; [226; 128; 169]; [226; 128; 175];
    [226; 129; 159]; [227; 128; 128] ].

Fixpoint strip_prefix (p l : list nat) : option (list nat) :=
  match p, l with
  | [], _ => Some l
  | a :: p', b :: l' => if Nat.eqb a b then strip_prefix p' l' else None
  | _ :: _, [] => None
  end.

(** The bytes left once one leading white space character is removed. *)
Fixpoint strip_space (encs : list (list nat)) (l : list nat) : option (list nat) :=
  match encs with
  | [] => None
  | e :: encs' =>
      match strip_prefix e l with
      | Some rest => Some rest
      | None => strip_space encs' l
      end
  end.

Fixpoint trim_left (fuel : nat) (encs : list (list nat)) (l : list nat) : list nat :=
  match fuel with
  | 0 => l
  | S fuel' =>
      match strip_space encs l with
      | Some rest => trim_left fuel' encs rest
      | None => l
      end
  end.

Definition bytes_of (s : string) : list nat := map nat_of_ascii (list_ascii_of_string s).
Definition of_bytes (l : list nat) : string := string_of_list_ascii (map ascii_of_nat l).

(** strings.TrimSpace: leading and trailing white space removed; the
    trailing end is trimmed on the reversed bytes against the reversed
    encodings. *)
Definition TrimSpace (s : string) : string :=
  let l := bytes_of s in
  let l1 := trim_left (List.length l) space_encodings l in
  let r := trim_left (List.length l1) (map (@rev nat) space_encodings) (rev l1) in
  of_bytes (rev r).

End Strings.


(** ** Errors *)

(** Why a system call on a path fails. *)
Inductive Errno := EACCES | ENOENT | ENOTDIR | EIO.

(** Go's error values as the program meets them: [Nil] is the nil error. *)
Inductive error :=
| Nil
| SkipDir                                  (* filepath.SkipDir *)
| SkipAll                                  (* filepath.SkipAll *)
| PathError (op path : string) (e : Errno) (* *fs.PathError of os and filepath *)
| ExitError (code : nat)                   (* *exec.ExitError, or the command not found *)
| SdkError (msg : string)                  (* an error of the Azure SDK *)
| Errorf (msg : string)                    (* fmt.Errorf with no %w verb *)
| Wrapf (before : string) (err : error) (after : string).
                                           (* fmt.Errorf(before + "%w" + after, err) *)

Definition is_nil (e : error) : bool :=
  match e with Nil => true | _ => false end.

Definition is_SkipDir (e : error) : bool :=
  match e with SkipDir => true | _ => false end.

Definition is_SkipAll (e : error) : bool :=
  match e with SkipAll => true | _ => false end.

(** ** The file system: os.Lstat, os.ReadDir, filepath.Join, filepath.Walk *)

(** What stands at a path.  A directory lists its entries by name, in the
    order the disk has them; [rd] is the failure of reading that list, when
    it fails.  [Gone] is an entry lstat fails on; its directory entry still
    says whether it is a directory. *)
#[warnings="-register-all"]
Inductive Entry :=
| File
| Dir (rd : option Errno) (entries : list (string * Entry))
| Gone (isdir : bool) (e : Errno).

Record FileInfo := { IsDir : bool }.

Definition entry_IsDir (e : Entry) : bool :=
  match e with
  | File => false
  | Dir _ _ => true
  | Gone d _ => d
  end.

Module Filepath.

(** filepath.Join(dir, name) for a directory path in Clean form and the
    name of one of its entries: Clean drops the leading [.] element and
    adds no second separator after the root. *)
Definition Join (dir name : string) : string :=
  if (dir =? ".")%string then name
  else if (dir =? EmptyString)%string then name
  else if (dir =? "/")%string then "/" ++ name
  else dir ++ "/" ++ name.

(** slices.Sort on the names of a directory, as readDirNames and
    os.ReadDir do: insertion into byte-wise order. *)
Fixpoint insert_by_name (x : string * Entry) (l : list (string * Entry)) :
  list (string * Entry) :=
  match l with
  | [] => [x]
  | y :: l' =>
      if String.leb (fst x) (fst y) then x :: l
      else y :: insert_by_name x l'
  end.

Definition sort_by_name (l : list (string * Entry)) : list (string * Entry) :=
  fold_right insert_by_name [] l.

(** The tree as the walk meets it: every directory's names sorted. *)
Fixpoint sorted (e : Entry) : Entry :=
  match e with
  | Dir rd entries =>
      Dir rd (sort_by_name (map (fun ne => (fst ne, sorted (snd ne))) entries))
  | _ => e
  end.

Section Walk.
(** The variables a WalkFunc closes over and assigns. *)
Variable St : Type.

Definition WalkFunc : Type :=
  string -> option FileInfo -> error -> St -> error * St.

Variable walkFn : WalkFunc.

(** filepath.walk, together with the lstat its callers do first: on an
    entry lstat fails on, the callback gets a nil info and the error; on
    a file it gets the info; on a directory it gets the info and the
    error of reading the names, and the walk goes into the names only
    when both that error and the callback's answer are nil. *)
Fixpoint walk (path : string) (e : Entry) (st : St) {struct e} : error * St :=
  match e with
  | Gone _ errno => walkFn path None (PathError "lstat" path errno) st
  | File => walkFn path (Some {| IsDir := false |}) Nil st
  | Dir rd names =>
      let err := match rd with
                 | Some errno => PathError "open" path errno
                 | None => Nil
                 end in
      let (err1, st1) := walkFn path (Some {| IsDir := true |}) err st in
      if negb (is_nil err) || negb (is_nil err1) then (err1, st1)
      else
        (fix loop (names : list (string * Entry)) (st : St) : error * St :=
           match names with
           | [] => (Nil, st)
           | (name, child) :: names' =>
               let filename := Join path name in
               let (err, st') := walk filename child st in
               match child with
               | Gone _ _ =>
                   if negb (is_nil err) && negb (is_SkipDir err)
                   then (err, st')
                   else loop names' st'
               | _ =>
                   if negb (is_nil err)
                   then if negb (entry_IsDir child) || negb (is_SkipDir err)
                        then (err, st')
                        else loop names' st'
                   else loop names' st'
               end
           end) names st1
  end.

(** filepath.Walk(root, fn). *)
Definition Walk (root : string) (tree : Entry) (st : St) : error * St :=
  let (err, st') := walk root (sorted tree) st in
  if is_SkipDir err || is_SkipAll err then (Nil, st') else (err, st').

End Walk.

End Filepath.

(** os.ReadDir(name): the entries of the directory sorted by name; a nil
    list and the error when the directory cannot be opened or read. *)
Definition ReadDir (name : string) (tree : Entry) : list (string * Entry) * error :=
  match tree with
  | Dir None entries => (Filepath.sort_by_name entries, Nil)
  | Dir (Some errno) _ => ([], PathError "open" name errno)
  | File => ([], PathError "open" name ENOTDIR)
  | Gone _ errno => ([], PathError "open" name errno)
  end.

(** ** The world outside of the process *)

Definition nl : string := String (ascii_of_nat 10) EmptyString.
Definition dquote : string := String (ascii_of_nat 34) EmptyString.

(** An *exec.Cmd: the argument vector and, when the program sets it, the
    environment of the child. *)
Record Cmd := { argv : list string; cmdEnv : option (list string) }.

(** [proc] is the subprocess facility: the combined output and the error of
    a command, given the commands run before it ([ran], oldest first); a
    command that runs is added to [ran] and changes nothing else here.
    The two [sdk] fields are the Azure SDK calls of the [Sdk] variant. *)
Record World := {
  environ : list (string * string);
  tree_at : string -> Entry;
  proc : list Cmd -> Cmd -> string * error;
  sdkLogin : string -> string -> string -> error;
  sdkClient : error;
  ran : list Cmd;
  stdout : list string;
  stderr : list string
}.

Definition errno_text (e : Errno) : string :=
  match e with
  | EACCES => "permission denied"
  | ENOENT => "no such file or directory"
  | ENOTDIR => "not a directory"
  | EIO => "input/output error"
  end.

Definition decimal (n : nat) : string :=
  NilEmpty.string_of_uint (Nat.to_uint n).

(** err.Error(), and what the verbs %v and %w print. *)
Fixpoint Error (e : error) : string :=
  match e with
  | Nil => "<nil>"
  | SkipDir => "skip this directory"
  | SkipAll => "skip everything and stop the walk"
  | PathError op path errno => op ++ " " ++ path ++ ": " ++ errno_text errno
  | ExitError code => "exit status " ++ decimal code
  | SdkError msg => msg
  | Errorf msg => msg
  | Wrapf before err after => before ++ Error err ++ after
  end.

(** ** The monad of the program: globals, world, panics and exits *)

Section Monad.
(** The package-level variables of a variant. *)
Variable G : Type.

Record State := { globals : G; world : World }.

Inductive Result (A : Type) :=
| Ok (a : A)
| Panic (msg : string)        (* a run-time panic *)
| Exit (code : nat).          (* os.Exit, log.Fatal *)

Arguments Panic {A} msg.
Arguments Exit {A} code.

Definition M (A : Type) : Type := State -> Result A * State.

Definition ret {A} (a : A) : M A := fun st => (Ok a, st).

Definition bind {A B} (m : M A) (k : A -> M B) : M B :=
  fun st =>
    match m st with
    | (Ok a, st') => k a st'
    | (Panic msg, st') => (Panic msg, st')
    | (Exit code, st') => (Exit code, st')
    end.

Definition panic {A} (msg : string) : M A := fun st => (Panic msg, st).
Definition exit {A} (code : nat) : M A := fun st => (Exit code, st).

Definition getGlobals : M G := fun st => (Ok (globals st), st).
Definition setGlobals (g : G) : M unit :=
  fun st => (Ok tt, {| globals := g; world := world st |}).
Definition getWorld : M World := fun st => (Ok (world st), st).
Definition setWorld (w : World) : M unit :=
  fun st => (Ok tt, {| globals := globals st; world := w |}).

(** os.Getenv: the value of the first entry with that key, empty when
    there is none. *)
Fixpoint lookup_env (key : string) (env : list (string * string)) : string :=
  match env with
  | [] => EmptyString
  | (k, v) :: env' => if (k =? key)%string then v else lookup_env key env'
  end.

Definition Getenv (key : string) : M string :=
  bind getWorld (fun w => ret (lookup_env key (environ w))).

(** os.Environ. *)
Definition Environ : M (list string) :=
  bind getWorld (fun w => ret (map (fun kv => fst kv ++ "=" ++ snd kv) (environ w))).

(** Writing to standard output (fmt.Println, fmt.Printf) and to standard
    error (the log package): each call adds its text.  The date and time
    the log package puts before its text are left out. *)
Definition Print (text : string) : M unit :=
  bind getWorld (fun w =>
    setWorld {| environ := environ w; tree_at := tree_at w; proc := proc w;
                sdkLogin := sdkLogin w; sdkClient := sdkClient w;
                ran := ran w; stdout := stdout w ++ [text]; stderr := stderr w |}).

Definition Println (text : string) : M unit := Print (text ++ nl).

Definition LogPrint (text : string) : M unit :=
  bind getWorld (fun w =>
    setWorld {| environ := environ w; tree_at := tree_at w; proc := proc w;
                sdkLogin := sdkLogin w; sdkClient := sdkClient w;
                ran := ran w; stdout := stdout w; stderr := stderr w ++ [text] |}).

(** log.Fatal, log.Fatalf: the text on standard error, then os.Exit(1). *)
Definition LogFatal {A} (text : string) : M A :=
  bind (LogPrint (text ++ nl)) (fun _ => exit 1).

(** cmd.CombinedOutput(): the command runs and is added to [ran]. *)
Definition CombinedOutput (cmd : Cmd) : M (string * error) :=
  bind getWorld (fun w =>
    bind (setWorld {| environ := environ w; tree_at := tree_at w; proc := proc w;
                      sdkLogin := sdkLogin w; sdkClient := sdkClient w;
                      ran := ran w ++ [cmd]; stdout := stdout w; stderr := stderr w |})
         (fun _ => ret (proc w (ran w) cmd))).

(** exec.Command(name, arg...). *)
Definition Command (name : string) (args : list string) : Cmd :=
  {| argv := name :: args; cmdEnv := None |}.

(** What stands at a path, for os.Lstat and os.ReadDir. *)
Definition treeAt (path : string) : M Entry :=
  bind getWorld (fun w => ret (tree_at w path)).

End Monad.

Arguments Ok {A} a.
Arguments Panic {A} msg.
Arguments Exit {A} code.
Arguments ret {G A} a.
Arguments panic {G A} msg.
Arguments exit {G A} code.
Arguments getGlobals {G}.
Arguments getWorld {G}.
Arguments Environ {G}.
Arguments LogFatal {G A} text.

Declare Scope go_scope.
Delimit Scope go_scope with go.
Notation "x <- m ;; k" := (bind m (fun x => k))
  (at level 61, m at next level, right associativity) : go_scope.
Notation "' p <- m ;; k" := (bind m (fun x => let p := x in k))
  (at level 61, p pattern, m at next level, right associativity) : go_scope.
Notation "m ;;; k" := (bind m (fun _ => k))
  (at level 61, right associativity) : go_scope.
Open Scope go_scope.

Definition bool_text (b : bool) : string := if b then "true" else "false".

(** ** The variant that shells out to the CLI (twice in the source) *)

Module Cli.

(** The package-level variables. *)
Record Globals := {
  appID : string;
  clientSecret : string;
  tenantID : string;
  loggedIn : bool;
  resourceGroup : string;
  aksName : string
}.

(** Their values when the process starts. *)
Definition zero : Globals :=
  {| appID := EmptyString; clientSecret := EmptyString; tenantID := EmptyString;
     loggedIn := false; resourceGroup := EmptyString; aksName := EmptyString |}.

Definition set_loggedIn (b : bool) : M Globals unit :=
  g <- getGlobals ;;
  setGlobals {| appID := appID g; clientSecret := clientSecret g; tenantID := tenantID g;
                loggedIn := b; resourceGroup := resourceGroup g; aksName := aksName g |}.

(** loadCredentials.  Its three [:=] declare variables of the function
    with the names of the globals, so the three assignments that follow
    the test assign each of these variables to itself: the binders below
    shadow the projections of [Globals] in the same way. *)
Definition loadCredentials : M Globals error :=
  appID <- Getenv "AZURE_APP_ID" ;;
  clientSecret <- Getenv "AZURE_CLIENT_SECRET" ;;
  tenantID <- Getenv "AZURE_TENANT_ID" ;;
  if (appID =? "") || (clientSecret =? "") || (tenantID =? "") then
    ret (Errorf "missing required environment variables: AZURE_APP_ID, AZURE_CLIENT_SECRET, AZURE_TENANT_ID")
  else
    let appID := appID in
    let clientSecret := clientSecret in
    let tenantID := tenantID in
    Println "Loaded credentials from environment variables" ;;;
    ret Nil.

(** authenticate. *)
Definition authenticate : M Globals error :=
  err <- loadCredentials ;;
  if negb (is_nil err) then
    ret (Wrapf "failed to load credentials: " err "")
  else
    Println "Authenticating..." ;;;
    env <- Environ ;;
    g <- getGlobals ;;
    let cmd := {| argv := ["az"; "login"; "--service-principal"; "-i"];
                  cmdEnv := Some (app env ["AZURE_APP_ID=" ++ appID g;
                                           "AZURE_CLIENT_SECRET=" ++ clientSecret g;
                                           "AZURE_TENANT_ID=" ++ tenantID g]) |} in
    '(output, err) <- CombinedOutput cmd ;;
    if negb (is_nil err) then
      ret (Wrapf "authentication failed: " err (nl ++ "Output:" ++ nl ++ output))
    else
      Println "Authenticated successfully!" ;;;
      set_loggedIn true ;;;
      ret Nil.

(** The loop of getSubscriptionID over the lines of the output. *)
Fixpoint scan_lines (lines : list string) : M Globals (string * error) :=
  match lines with
  | [] => ret (EmptyString, Errorf "unable to extract subscription ID from output")
  | line :: lines' =>
      if Strings.Contains line "id:" then
        match nth_error (Strings.Split line ":") 1 with
        | Some part => ret (Strings.TrimSpace part, Nil)
        | None => panic "runtime error: index out of range [1]"
        end
      else scan_lines lines'
  end.

(** getSubscriptionID. *)
Definition getSubscriptionID : M Globals (string * error) :=
  '(output, err) <- CombinedOutput (Command "az" ["account"; "show"]) ;;
  if negb (is_nil err) then
    ret (EmptyString,
         Wrapf "failed to get subscription ID: " err (nl ++ "Output:" ++ nl ++ output))
  else
    scan_lines (Strings.Split output nl).

(** setSubscription. *)
Definition setSubscription (subscriptionID : string) : M Globals error :=
  '(output, err) <- CombinedOutput
                      (Command "az" ["account"; "set"; "--subscription"; subscriptionID]) ;;
  if negb (is_nil err) then
    ret (Wrapf "failed to set subscription: " err (nl ++ "Output:" ++ nl ++ output))
  else
    Println ("Set active subscription to: " ++ subscriptionID) ;;;
    ret Nil.

(** The function literal discoverFiles hands to filepath.Walk; [files] is
    the variable it appends to.  Walk passes a nil info only together
    with an error, so the last case is never taken. *)
Definition discoverFiles_fn (dirPath : string) : Filepath.WalkFunc (list string) :=
  fun path info err files =>
    if negb (is_nil err) then (err, files)
    else
      match info with
      | Some info =>
          if negb (IsDir info) && negb (path =? dirPath ++ "/")
          then (Nil, app files [path])
          else (Nil, files)
      | None => (Errorf "runtime error: invalid memory address or nil pointer dereference", files)
      end.

(** discoverFiles. *)
Definition discoverFiles (dirPath : string) : M Globals (list string * error) :=
  let files := [] in
  tree <- treeAt dirPath ;;
  let (err, files) := Filepath.Walk (discoverFiles_fn dirPath) dirPath tree files in
  if negb (is_nil err) then
    ret ([], Wrapf "failed to discover files: " err "")
  else
    ret (files, Nil).

(** The Run function of the auth command. *)
Definition authRun (args : list string) : M Globals error :=
  err <- authenticate ;;
  if negb (is_nil err) then
    ret (Wrapf "authentication failed: " err "")
  else
    Println "Authenticated successfully!" ;;;
    ret Nil.

(** The Run function of the sub command. *)
Definition subRun (args : list string) : M Globals error :=
  match nth_error args 0 with
  | None => panic "runtime error: index out of range [0]"
  | Some subID =>
      err <- setSubscription subID ;;
      if negb (is_nil err) then
        ret (Wrapf "failed to set subscription: " err "")
      else
        Println ("Set active subscription to: " ++ subID) ;;;
        ret Nil
  end.

(** The Run function of the status command. *)
Definition statusRun (args : list string) : M Globals error :=
  g <- getGlobals ;;
  if negb (loggedIn g) then
    ret (Errorf "not logged in - run 'xks auth' first")
  else
    '(subID, err) <- getSubscriptionID ;;
    if negb (is_nil err) then ret err
    else
      Println "Current Status:" ;;;
      g <- getGlobals ;;
      Print ("  Logged In: " ++ bool_text (loggedIn g) ++ nl) ;;;
      Print ("  Subscription ID: " ++ subID ++ nl) ;;;
      ret Nil.

(** The loop of the invoke command over the discovered files:
    fileParams += ... for each file, from the empty string. *)
Definition fileParams_of (files : list string) : string :=
  fold_left (fun fileParams file => fileParams ++ " --file " ++ dquote ++ file ++ dquote)
            files EmptyString.

(** The command line the invoke command builds. *)
Definition fullCommand_of (resourceGroup aksName command fileParams : string) : string :=
  "az aks command invoke " ++ resourceGroup ++ " " ++ aksName ++ " " ++ command ++ fileParams.

(** The Run function of the invoke command. *)
Definition invokeRun (args : list string) : M Globals error :=
  let command := Strings.Join args " " in
  '(files, err) <- discoverFiles "." ;;
  if negb (is_nil err) then
    ret (Wrapf "failed to discover files: " err "")
  else
    let fileParams := fileParams_of files in
    g <- getGlobals ;;
    let fullCommand := fullCommand_of (resourceGroup g) (aksName g) command fileParams in
    Println fullCommand ;;;
    '(output, err) <- CombinedOutput (Command "bash" ["-c"; fullCommand]) ;;
    if negb (is_nil err) then
      LogPrint ("Error executing command: " ++ Error err ++ nl ++
                        "Output:" ++ nl ++ output ++ nl) ;;;
      ret (Wrapf "command failed: " err "")
    else
      Println output ;;;
      ret Nil.

(** cmd.Execute() on the arguments of the process: cobra finds the
    command by its name, checks the number of arguments (ExactArgs(1) for
    sub, MinimumNArgs(1) for invoke) and calls the Run function. *)
Definition Execute (osArgs : list string) : M Globals error :=
  match osArgs with
  | [] => ret Nil
  | name :: args =>
      if name =? "auth" then authRun args
      else if name =? "sub" then
        if Nat.eqb (List.length args) 1 then subRun args
        else ret (Errorf ("accepts 1 arg(s), received " ++ decimal (List.length args)))
      else if name =? "status" then statusRun args
      else if name =? "invoke" then
        if Nat.leb 1 (List.length args) then invokeRun args
        else ret (Errorf "requires at least 1 arg(s), only received 0")
      else ret (Errorf ("unknown command " ++ dquote ++ name ++ dquote ++ " for " ++
                        dquote ++ "xks" ++ dquote))
  end.

(** main. *)
Definition main (osArgs : list string) : M Globals unit :=
  err <- Execute osArgs ;;
  if negb (is_nil err) then LogFatal (Error err)
  else ret tt.

End Cli.

(** ** The variant that keeps the subscription in the process *)

Module Sdk.

(** The package-level variables. *)
Record Globals := {
  loggedIn : bool;
  currentSubID : string
}.

Definition zero : Globals := {| loggedIn := false; currentSubID := EmptyString |}.

Definition set_loggedIn (b : bool) : M Globals unit :=
  g <- getGlobals ;;
  setGlobals {| loggedIn := b; currentSubID := currentSubID g |}.

Definition set_currentSubID (s : string) : M Globals unit :=
  g <- getGlobals ;;
  setGlobals {| loggedIn := loggedIn g; currentSubID := s |}.

(** authenticate. *)
Definition authenticate : M Globals error :=
  appID <- Getenv "AZURE_APP_ID" ;;
  clientSecret <- Getenv "AZURE_CLIENT_SECRET" ;;
  tenantID <- Getenv "AZURE_TENANT_ID" ;;
  if (appID =? "") || (clientSecret =? "") || (tenantID =? "") then
    ret (Errorf "required environment variables (AZURE_APP_ID, AZURE_CLIENT_SECRET, AZURE_TENANT_ID) are not set")
  else
    w <- getWorld ;;
    let err := sdkLogin w appID clientSecret tenantID in
    if negb (is_nil err) then
      ret (Wrapf "failed to create service principal credentials: " err "")
    else
      set_loggedIn true ;;;
      sub <- Getenv "AZURE_SUBSCRIPTION" ;;
      set_currentSubID sub ;;;
      Println "Authenticated successfully with Azure!" ;;;
      ret Nil.

(** setSubscription. *)
Definition setSubscription (subscriptionID : string) : M Globals error :=
  g <- getGlobals ;;
  if negb (loggedIn g) then
    ret (Errorf "not authenticated - cannot set subscription")
  else
    w <- getWorld ;;
    let err := sdkClient w in
    if negb (is_nil err) then
      ret (Wrapf "failed to create subscriptions client: " err "")
    else
      Print ("Setting active subscription to: " ++ subscriptionID ++ nl) ;;;
      set_currentSubID subscriptionID ;;;
      ret Nil.

(** getSubscription. *)
Definition getSubscription : M Globals (string * error) :=
  g <- getGlobals ;;
  if negb (loggedIn g) then
    ret (EmptyString, Errorf "not authenticated - no subscription is set")
  else
    ret (currentSubID g, Nil).

(** The loop of executeAzAksCommand over the files: three WriteString
    calls on the builder for each file. *)
Definition fileParams_of (files : list string) : string :=
  fold_left (fun fileParams file => ((fileParams ++ " --file " ++ dquote) ++ file) ++ dquote)
            files EmptyString.

(** The Sprintf of executeAzAksCommand. *)
Definition fullCommand_of (command resourceGroup aksName fileParams : string) : string :=
  "az aks command invoke " ++ command ++ " --resource-group " ++ resourceGroup ++
  " --name " ++ aksName ++ " " ++ fileParams.

(** executeAzAksCommand. *)
Definition executeAzAksCommand (command resourceGroup aksName : string)
           (files : list string) : M Globals error :=
  let fileParams := fileParams_of files in
  let fullCommand := fullCommand_of command resourceGroup aksName fileParams in
  Println ("Executing: " ++ fullCommand) ;;;
  '(output, err) <- CombinedOutput (Command "bash" ["-c"; fullCommand]) ;;
  if negb (is_nil err) then
    LogPrint ("Error executing command: " ++ Error err ++ nl ++
              "Output:" ++ nl ++ output ++ nl) ;;;
    ret (Wrapf "command failed: " err "")
  else
    Println output ;;;
    ret Nil.

(** The loop of discoverFiles over the entries. *)
Definition collect (dir : string) (entries : list (string * Entry)) : list string :=
  fold_left (fun files entry =>
               if negb (entry_IsDir (snd entry))
               then app files [Filepath.Join dir (fst entry)]
               else files)
            entries [].

(** discoverFiles. *)
Definition discoverFiles (dir : string) : M Globals (list string * error) :=
  tree <- treeAt dir ;;
  let (entries, err) := ReadDir dir tree in
  if negb (is_nil err) then
    ret ([], err)
  else
    ret (collect dir entries, Nil).

(** What cobra hands to the hook of the invoke command: the three flags
    (each with its default when it is not given) and the arguments. *)
Record Invocation := {
  flag_resource_group : string;
  flag_name : string;
  flag_subscription : string;
  positional : list string
}.

(** The hook of the invoke command. *)
Definition invokePreExecute (inv : Invocation) : M Globals error :=
  let resourceGroup := flag_resource_group inv in
  let aksName := flag_name inv in
  let commandToExecute := Strings.Join (positional inv) " " in
  let subscriptionOverride := flag_subscription inv in
  err <- (if negb (subscriptionOverride =? "") then setSubscription subscriptionOverride
          else ret Nil) ;;
  if negb (is_nil err) then
    ret (Wrapf "failed to set subscription: " err "")
  else
    '(files, err) <- discoverFiles "." ;;
    if negb (is_nil err) then
      ret (Wrapf "failed to discover files: " err "")
    else
      executeAzAksCommand commandToExecute resourceGroup aksName files.

(** main: [cli] is the invoke command of the command line, when the
    command line names it; it gives the flags as cobra parsed them, from
    the two defaults main registers. *)
Definition main (cli : option (string -> string -> Invocation)) : M Globals unit :=
  resourceGroup <- Getenv "RESOURCEGROUP" ;;
  aksName <- Getenv "AKSNAME" ;;
  (if (resourceGroup =? "") || (aksName =? "") then
     Println "Warning: RESOURCEGROUP and AKSNAME environment variables not set." ;;;
     Println "Using empty values, which will likely result in errors."
   else ret tt) ;;;
  err <- authenticate ;;
  (if negb (is_nil err) then LogFatal ("Authentication failed: " ++ Error err)
   else ret tt) ;;;
  subscriptionID <- Getenv "AZURE_SUBSCRIPTION" ;;
  (if negb (subscriptionID =? "") then
     err <- setSubscription subscriptionID ;;
     if negb (is_nil err) then
       LogFatal ("Failed to set default subscription: " ++ Error err)
     else
       Print ("Set active subscription to: " ++ subscriptionID ++ nl)
   else
     '(subscriptionID, err) <- getSubscription ;;
     if negb (is_nil err) then
       LogFatal ("Failed to retrieve current subscription: " ++ Error err)
     else
       Print ("Using current subscription: " ++ subscriptionID ++ nl)) ;;;
  '(subID, err) <- getSubscription ;;
  (if negb (is_nil err) then LogFatal (Error err) else ret tt) ;;;
  g <- getGlobals ;;
  Print ("Current Status:" ++ nl ++ "  Logged In: " ++ bool_text (loggedIn g) ++ nl ++
         "  Subscription ID: " ++ subID ++ nl) ;;;
  match cli with
  | None => ret tt
  | Some parse =>
      let inv := parse resourceGroup aksName in
      if Nat.leb 1 (List.length (positional inv)) then
        err <- invokePreExecute inv ;;
        if negb (is_nil err) then LogFatal (Error err) else ret tt
      else LogFatal "requires at least 1 arg(s), only received 0"
  end.

End Sdk.

(** * Properties *)

(** ** Strings *)

Section StringFacts.

Lemma append_assoc (a b c : string) : (a ++ b) ++ c = a ++ b ++ c.
Proof. induction a as [|x a IH]; simpl; [reflexivity | now rewrite IH]. Qed.

Lemma append_nil_r (a : string) : a ++ EmptyString = a.
Proof. induction a as [|x a IH]; simpl; [reflexivity | now rewrite IH]. Qed.

Lemma length_append (a b : string) :
  String.length (a ++ b) = String.length a + String.length b.
Proof. induction a as [|x a IH]; simpl; [reflexivity | now rewrite IH]. Qed.

Lemma prefix_app (p r : string) : String.prefix p (p ++ r) = true.
Proof.
  induction p as [|x p IH]; simpl.
  - now destruct r.
  - destruct (ascii_dec x x) as [_|n]; [exact IH | now elim n].
Qed.

Lemma prefix_split (p s : string) :
  String.prefix p s = true -> s = p ++ Strings.skip (String.length p) s.
Proof.
  revert s; induction p as [|x p IH]; intros s H; simpl.
  - now destruct s.
  - destruct s as [|y s]; simpl in H; [discriminate|].
    destruct (ascii_dec x y) as [->|_]; [|discriminate].
    simpl. now rewrite <- IH.
Qed.

Lemma Index_unfold (s sub : string) :
  Strings.Index s sub =
  if String.prefix sub s then Some 0
  else match s with
       | EmptyString => None
       | String _ s' => option_map S (Strings.Index s' sub)
       end.
Proof. destruct s; reflexivity. Qed.

(** Where Index finds the substring, the string is cut around it. *)
Lemma Index_split (sub s : string) (m : nat) :
  Strings.Index s sub = Some m ->
  s = Strings.take m s ++ sub ++ Strings.skip (m + String.length sub) s.
Proof.
  revert m; induction s as [|c s IH]; intros m H; rewrite Index_unfold in H.
  - destruct (String.prefix sub EmptyString) eqn:E; [|discriminate].
    injection H as <-. now apply prefix_split in E.
  - destruct (String.prefix sub (String c s)) eqn:E.
    + injection H as <-. now apply prefix_split in E.
    + destruct (Strings.Index s sub) as [k|] eqn:Ek; [|discriminate].
      injection H as <-. simpl. f_equal. now apply IH.
Qed.

(** Index finds every substring that is there. *)
Lemma Index_finds (sub a b : string) :
  Strings.Index (a ++ sub ++ b) sub <> None.
Proof.
  induction a as [|c a IH]; rewrite Index_unfold.
  - simpl. rewrite prefix_app. discriminate.
  - destruct (String.prefix sub (String c a ++ sub ++ b)); [discriminate|].
    simpl. destruct (Strings.Index (a ++ sub ++ b) sub); [discriminate | now elim IH].
Qed.

Lemma Index_nonempty (sub s : string) (m : nat) :
  sub <> EmptyString -> Strings.Index s sub = Some m -> 1 <= String.length s.
Proof.
  intros Hs H. destruct s as [|c s]; simpl; [|lia].
  rewrite Index_unfold in H. destruct sub; [now elim Hs | discriminate].
Qed.

Lemma split_loop_nonempty (n : nat) (s sep : string) :
  1 <= List.length (Strings.split_loop n s sep).
Proof.
  destruct n; simpl; [lia|]. destruct (Strings.Index s sep); simpl; lia.
Qed.

(** A separator that occurs gives Split at least two pieces. *)
Lemma Split_two (s sep : string) (m : nat) :
  sep <> EmptyString -> Strings.Index s sep = Some m ->
  2 <= List.length (Strings.Split s sep).
Proof.
  intros Hs H. pose proof (@Index_nonempty sep s m Hs H) as Hl.
  unfold Strings.Split. apply String.eqb_neq in Hs. rewrite Hs.
  assert (Hc : 1 <= Strings.Count s sep).
  { unfold Strings.Count. destruct (String.length s); [lia|]. simpl. rewrite H. lia. }
  set (n := if Nat.ltb (String.length s + 1) (Strings.Count s sep + 1)
            then String.length s + 1 else Strings.Count s sep + 1).
  assert (Hn : 2 <= n) by (subst n; destruct (Nat.ltb _ _); lia).
  destruct n as [|[|n]]; try lia. simpl. rewrite H. simpl.
  pose proof (split_loop_nonempty n (Strings.skip (m + String.length sep) s) sep). lia.
Qed.

(** A line with [id:] in it has a colon in it. *)
Lemma Contains_id_colon (line : string) :
  Strings.Contains line "id:" = true -> exists m, Strings.Index line ":" = Some m.
Proof.
  unfold Strings.Contains. destruct (Strings.Index line "id:") as [k|] eqn:E; [|discriminate].
  intros _. apply Index_split in E.
  assert (E' : line = (Strings.take k line ++ "id") ++ ":" ++ Strings.skip (k + 3) line).
  { rewrite append_assoc. exact E. }
  pose proof (Index_finds ":" (Strings.take k line ++ "id") (Strings.skip (k + 3) line)) as F.
  rewrite <- E' in F. destruct (Strings.Index line ":") as [m|]; [now exists m | now elim F].
Qed.

End StringFacts.

(** ** Trees *)

Section EntryInduction.
Variable P : Entry -> Prop.
Hypothesis P_File : P File.
Hypothesis P_Gone : forall d e, P (Gone d e).
Hypothesis P_Dir : forall rd entries,
    Forall (fun ne => P (snd ne)) entries -> P (Dir rd entries).

(** Induction on a tree, with the property for every entry of a
    directory. *)
Fixpoint Entry_induction (e : Entry) : P e :=
  match e with
  | File => P_File
  | Gone d x => P_Gone d x
  | Dir rd entries =>
      P_Dir rd
        ((fix all (l : list (string * Entry)) : Forall (fun ne => P (snd ne)) l :=
            match l with
            | [] => Forall_nil _
            | ne :: l' => Forall_cons ne (Entry_induction (snd ne)) (all l')
            end) entries)
  end.
End EntryInduction.

(** A traversal of the tree fails somewhere: an entry lstat fails on, or a
    directory whose names cannot be read. *)
Fixpoint fails (e : Entry) : bool :=
  match e with
  | File => false
  | Gone _ _ => true
  | Dir (Some _) _ => true
  | Dir None entries => existsb (fun ne => fails (snd ne)) entries
  end.

Section TreeFacts.

Lemma existsb_insert (f : string * Entry -> bool) x l :
  existsb f (Filepath.insert_by_name x l) = f x || existsb f l.
Proof.
  induction l as [|y l IH]; simpl; [reflexivity|].
  destruct (String.leb (fst x) (fst y)); simpl; [reflexivity|].
  rewrite IH. destruct (f x), (f y); reflexivity.
Qed.

Lemma existsb_sort (f : string * Entry -> bool) l :
  existsb f (Filepath.sort_by_name l) = existsb f l.
Proof.
  induction l as [|y l IH]; simpl; [reflexivity|].
  now rewrite existsb_insert, IH.
Qed.

Lemma In_insert (x y : string * Entry) l :
  In y (Filepath.insert_by_name x l) <-> y = x \/ In y l.
Proof.
  induction l as [|z l IH]; simpl.
  - intuition congruence.
  - destruct (String.leb (fst x) (fst z)); simpl; [intuition congruence|].
    rewrite IH. intuition congruence.
Qed.

Lemma In_sort (y : string * Entry) l :
  In y (Filepath.sort_by_name l) <-> In y l.
Proof.
  induction l as [|z l IH]; simpl; [tauto|].
  rewrite In_insert, IH. intuition congruence.
Qed.

(** Sorting the names moves no failure in or out of the tree. *)
Lemma fails_sorted (e : Entry) : fails (Filepath.sorted e) = fails e.
Proof.
  induction e as [| |rd entries IH] using Entry_induction; try reflexivity.
  destruct rd as [errno|]; simpl; [reflexivity|].
  rewrite existsb_sort.
  induction IH as [|ne l H _ IHl]; simpl; [reflexivity|].
  now rewrite H, IHl.
Qed.

End TreeFacts.

(** ** The walk of discoverFiles *)

Section WalkFacts.
Variable dirPath : string.

Let fn := Cli.discoverFiles_fn dirPath.

Definition is_PathError (e : error) : bool :=
  match e with PathError _ _ _ => true | _ => false end.

(** The walk answers nil on a tree with no failure and the error of the
    first failure otherwise; the files met until then are in its state
    either way. *)
Lemma walk_outcome (e : Entry) :
  forall path files,
    is_PathError (fst (Filepath.walk fn path e files)) = fails e /\
    is_nil (fst (Filepath.walk fn path e files)) = negb (fails e).
Proof.
  induction e as [| |rd entries IH] using Entry_induction; intros path files.
  - simpl. unfold fn, Cli.discoverFiles_fn. simpl.
    destruct (negb (path =? dirPath ++ "/")); simpl; auto.
  - simpl. auto.
  - destruct rd as [errno|]; [simpl; auto|].
    cbn [Filepath.walk fails]. unfold fn at 1 3, Cli.discoverFiles_fn. cbn [is_nil negb IsDir andb orb].
    cbv iota beta.
    revert files. induction IH as [|[name child] l H _ IHl]; intros files; [simpl; auto|].
    cbn [existsb snd].
    specialize (H (Filepath.Join path name) files). cbn [snd] in H.
    destruct (Filepath.walk fn (Filepath.Join path name) child files) as [err st'].
    cbn [fst] in H. destruct H as [H1 H2].
    destruct (fails child) eqn:F; cbn [orb].
    + destruct err; try discriminate.
      destruct child; cbn; auto.
    + destruct err; try discriminate.
      destruct child; try discriminate; cbn [is_nil negb andb]; apply IHl.
Qed.

(** filepath.Walk on the tree at the root. *)
Lemma Walk_outcome (tree : Entry) (files : list string) :
  is_nil (fst (Filepath.Walk fn dirPath tree files)) = negb (fails tree).
Proof.
  unfold Filepath.Walk.
  destruct (walk_outcome (Filepath.sorted tree) dirPath files) as [H1 H2].
  rewrite fails_sorted in H1, H2.
  destruct (Filepath.walk fn dirPath (Filepath.sorted tree) files) as [err st'].
  cbn [fst] in *. destruct (fails tree); destruct err; cbn in *; congruence.
Qed.

End WalkFacts.

(** ** File discovery *)

(** What discoverFiles of the [Cli] variant answers on a tree. *)
Definition found (dirPath : string) (tree : Entry) : list string * error :=
  let (err, files) := Filepath.Walk (Cli.discoverFiles_fn dirPath) dirPath tree [] in
  if negb (is_nil err) then ([], Wrapf "failed to discover files: " err "")
  else (files, Nil).

Ltac run_monad :=
  unfold LogFatal, Println in *;
  unfold Getenv, Environ, Print, LogPrint, CombinedOutput, treeAt in *;
  unfold bind, ret, panic, exit, getGlobals, setGlobals, getWorld, setWorld in *;
  cbn [globals world fst snd environ tree_at proc sdkLogin sdkClient ran stdout stderr] in *.

Section Discovery.

(** discoverFiles reads the tree and leaves globals and world as they
    are. *)
Lemma discoverFiles_run (dirPath : string) (st : State Cli.Globals) :
  Cli.discoverFiles dirPath st = (Ok (found dirPath (tree_at (world st) dirPath)), st).
Proof.
  unfold Cli.discoverFiles, found. run_monad.
  destruct (Filepath.Walk _ _ _ _) as [err files].
  destruct (negb (is_nil err)); reflexivity.
Qed.

Lemma found_fails (dirPath : string) (tree : Entry) :
  fails tree = true ->
  exists err, is_nil err = false /\
              found dirPath tree = ([], Wrapf "failed to discover files: " err "").
Proof.
  intros F. unfold found.
  pose proof (Walk_outcome dirPath tree []) as H. rewrite F in H.
  destruct (Filepath.Walk _ _ _ _) as [err files]. cbn [fst negb] in H.
  exists err. rewrite H. split; reflexivity.
Qed.

Lemma found_succeeds (dirPath : string) (tree : Entry) :
  fails tree = false -> exists files, found dirPath tree = (files, Nil).
Proof.
  intros F. unfold found.
  pose proof (Walk_outcome dirPath tree []) as H. rewrite F in H.
  destruct (Filepath.Walk _ _ _ _) as [err files]. cbn [fst negb] in H.
  exists files. rewrite H. reflexivity.
Qed.

(** The invoke command when discovery fails: nothing is printed, nothing
    is run. *)
Lemma invokeRun_discovery_failed (args : list string) (st : State Cli.Globals) err :
  is_nil err = false ->
  found "." (tree_at (world st) ".") = ([], err) ->
  Cli.invokeRun args st = (Ok (Wrapf "failed to discover files: " err ""), st).
Proof.
  intros N E. unfold Cli.invokeRun. unfold bind at 1. rewrite discoverFiles_run, E.
  rewrite N. reflexivity.
Qed.

(** The invoke command when discovery succeeds: the command line is
    printed and handed to bash. *)
Lemma invokeRun_discovered (args files : list string) (st : State Cli.Globals) :
  found "." (tree_at (world st) ".") = (files, Nil) ->
  let g := globals st in
  let fullCommand :=
    Cli.fullCommand_of (Cli.resourceGroup g) (Cli.aksName g) (Strings.Join args " ")
                       (Cli.fileParams_of files) in
  let cmd := Command "bash" ["-c"; fullCommand] in
  let answer := proc (world st) (ran (world st)) cmd in
  ran (world (snd (Cli.invokeRun args st))) = (ran (world st) ++ [cmd])%list /\
  fst (Cli.invokeRun args st) =
    Ok (if is_nil (snd answer) then Nil else Wrapf "command failed: " (snd answer) "") /\
  globals (snd (Cli.invokeRun args st)) = g.
Proof.
  intros E g fullCommand cmd answer.
  destruct (Cli.invokeRun args st) as [res st'] eqn:R.
  unfold Cli.invokeRun in R. unfold bind at 1 in R. rewrite discoverFiles_run, E in R.
  cbn [is_nil negb] in R. run_monad.
  fold g fullCommand cmd answer in R.
  destruct answer as [output err]. cbn [snd].
  destruct (is_nil err); cbn [negb] in R; injection R as <- <-; cbn; auto.
Qed.

End Discovery.

(** ** File tokens *)

(** The token of one file, as the specification words it. *)
Definition file_token (path : string) : string :=
  " --file " ++ dquote ++ path ++ dquote.

(** The tokens one after the other, nothing in between. *)
Fixpoint flatten (tokens : list string) : string :=
  match tokens with
  | [] => EmptyString
  | t :: tokens' => t ++ flatten tokens'
  end.

Section Tokens.

Lemma fileParams_from (files : list string) (acc : string) :
  fold_left (fun fileParams file => fileParams ++ " --file " ++ dquote ++ file ++ dquote)
            files acc
  = acc ++ flatten (map file_token files).
Proof.
  revert acc; induction files as [|f files IH]; intros acc; cbn [fold_left map flatten].
  - now rewrite append_nil_r.
  - rewrite IH. unfold file_token. now rewrite !append_assoc.
Qed.

(** The accumulator of the invoke command is the tokens of the files, in
    the order of the files. *)
Lemma fileParams_flatten (files : list string) :
  Cli.fileParams_of files = flatten (map file_token files).
Proof. unfold Cli.fileParams_of. now rewrite fileParams_from. Qed.

(** The builder of executeAzAksCommand holds the same text. *)
Lemma Sdk_fileParams_flatten (files : list string) :
  Sdk.fileParams_of files = flatten (map file_token files).
Proof.
  unfold Sdk.fileParams_of.
  enough (H : forall acc,
             fold_left (fun fileParams file =>
                          ((fileParams ++ " --file " ++ dquote) ++ file) ++ dquote)
                       files acc
             = acc ++ flatten (map file_token files)) by apply H.
  induction files as [|f files IH]; intros acc; cbn [fold_left map flatten].
  - now rewrite append_nil_r.
  - rewrite IH. unfold file_token. now rewrite !append_assoc.
Qed.

Lemma flatten_app (a b : list string) : flatten (a ++ b) = flatten a ++ flatten b.
Proof.
  induction a as [|t a IH]; simpl; [reflexivity|]. now rewrite IH, append_assoc.
Qed.

End Tokens.

(** ** Worlds to run the program in *)

(** A subprocess facility on which every command succeeds and prints
    nothing. *)
Definition quiet : list Cmd -> Cmd -> string * error :=
  fun _ _ => (EmptyString, Nil).

(** A world with one environment, one tree at every path and one subprocess
    facility; nothing has run or been printed yet. *)
Definition a_world (env : list (string * string)) (tree : Entry)
           (facility : list Cmd -> Cmd -> string * error) : World :=
  {| environ := env; tree_at := fun _ => tree; proc := facility;
     sdkLogin := fun _ _ _ => Nil; sdkClient := Nil;
     ran := []; stdout := []; stderr := [] |}.

(** The directory of the specification's example, as a disk may list it. *)
Definition two_files : Entry := Dir None [("b.yaml", File); ("a.txt", File)].

Definition empty_directory : Entry := Dir None [].

(** The globals once RESOURCEGROUP and AKSNAME are known. *)
Definition some_cluster : Cli.Globals :=
  {| Cli.appID := EmptyString; Cli.clientSecret := EmptyString; Cli.tenantID := EmptyString;
     Cli.loggedIn := false; Cli.resourceGroup := "rg"; Cli.aksName := "aks" |}.

Definition in_two_files : State Cli.Globals :=
  {| globals := some_cluster; world := a_world [] two_files quiet |}.

Definition in_empty_directory : State Cli.Globals :=
  {| globals := some_cluster; world := a_world [] empty_directory quiet |}.

(** ** C1 *)

(** C1: whatever files discovery reports, the invoke command appends the
    token of each file, one per file and in the order of discovery, and
    hands the command line with these tokens to the shell; with no file
    discovered there is no token after the user command and the only error
    the command can answer is the one of the shell. *)
Theorem C1_one_file_token_per_file :
  forall (args files : list string) (st : State Cli.Globals),
    fst (Cli.discoverFiles "." st) = Ok (files, Nil) ->
    let tokens := map file_token files in
    let head := "az aks command invoke " ++ Cli.resourceGroup (globals st) ++ " " ++
                Cli.aksName (globals st) ++ " " ++ Strings.Join args " " in
    let cmd := Command "bash" ["-c"; head ++ flatten tokens] in
    Cli.fileParams_of files = flatten tokens /\
    List.length tokens = List.length files /\
    (forall i, nth_error tokens i = option_map file_token (nth_error files i)) /\
    ran (world (snd (Cli.invokeRun args st))) = (ran (world st) ++ [cmd])%list /\
    (files = [] ->
     cmd = Command "bash" ["-c"; head] /\
     fst (Cli.invokeRun args st) =
       Ok (let err := snd (proc (world st) (ran (world st)) cmd) in
           if is_nil err then Nil else Wrapf "command failed: " err "")).
Proof.
  intros args files st D tokens head cmd.
  rewrite discoverFiles_run in D. cbn [fst] in D. injection D as D.
  destruct (invokeRun_discovered args st D) as (R & A & _).
  assert (F : Cli.fullCommand_of (Cli.resourceGroup (globals st)) (Cli.aksName (globals st))
                (Strings.Join args " ") (Cli.fileParams_of files) = head ++ flatten tokens).
  { unfold Cli.fullCommand_of, head. rewrite fileParams_flatten.
    now rewrite !append_assoc. }
  rewrite F in R, A.
  split; [apply fileParams_flatten|].
  split; [apply length_map|].
  split; [intros i; apply nth_error_map|].
  split; [exact R|].
  intros ->. split; [|exact A].
  unfold cmd, tokens. simpl. now rewrite append_nil_r.
Qed.

(** With a.txt and b.yaml in the directory, two tokens, a.txt first. *)
Lemma C1_two_files :
  ran (world (snd (Cli.invokeRun ["kubectl"; "apply"] in_two_files))) =
  [Command "bash"
     ["-c"; "az aks command invoke rg aks kubectl apply" ++
            flatten [file_token "a.txt"; file_token "b.yaml"]]].
Proof.
  assert (D : fst (Cli.discoverFiles "." in_two_files) = Ok (["a.txt"; "b.yaml"], Nil))
    by reflexivity.
  exact (proj1 (proj2 (proj2 (proj2
           (C1_one_file_token_per_file ["kubectl"; "apply"] in_two_files D))))).
Defined.

(** The command line of that run, counted: two tokens with two files, none
    in an empty directory. *)
Example two_files_two_tokens :
  map (fun c => Strings.Count (last (argv c) EmptyString) "--file")
      (ran (world (snd (Cli.invokeRun ["kubectl"; "apply"] in_two_files)))) = [2].
Proof. vm_compute. reflexivity. Qed.

Example empty_directory_no_token :
  map (fun c => Strings.Count (last (argv c) EmptyString) "--file")
      (ran (world (snd (Cli.invokeRun ["kubectl"; "apply"] in_empty_directory)))) = [0] /\
  fst (Cli.invokeRun ["kubectl"; "apply"] in_empty_directory) = Ok Nil.
Proof. vm_compute. split; reflexivity. Qed.

(** ** C6 *)

(** A file name with a double quote in it. *)
Definition quoted_name : string := "a" ++ dquote ++ "b.txt".

(** C6: the token appended for a path is the nine characters of the flag
    and the opening quote, the path as it is, and a closing quote: the
    token is ten characters longer than the path and the path stands in it
    unchanged, also when the path has a double quote in it. *)
Theorem C6_token_is_the_path_unescaped :
  forall (files : list string) (path : string),
    Cli.fileParams_of (app files [path]) =
      Cli.fileParams_of files ++ " --file " ++ dquote ++ path ++ dquote /\
    String.length (" --file " ++ dquote ++ path ++ dquote) = 10 + String.length path /\
    Strings.take (String.length path) (Strings.skip 9 (" --file " ++ dquote ++ path ++ dquote))
      = path /\
    Cli.fileParams_of [quoted_name] = " --file " ++ dquote ++ "a" ++ dquote ++ "b.txt" ++ dquote.
Proof.
  intros files path. split; [|split; [|split]].
  - rewrite !fileParams_flatten, map_app, flatten_app. cbn [map flatten].
    unfold file_token. now rewrite append_nil_r.
  - rewrite !length_append. cbn. lia.
  - cbn. induction path as [|c path IH]; cbn; [reflexivity | now rewrite IH].
  - reflexivity.
Qed.

(** A file of that name in the directory reaches the shell as it is. *)
Example quoted_name_reaches_the_shell :
  ran (world (snd (Cli.invokeRun ["kubectl"; "apply"]
                     {| globals := some_cluster;
                        world := a_world [] (Dir None [(quoted_name, File)]) quiet |}))) =
  [Command "bash"
     ["-c"; "az aks command invoke rg aks kubectl apply --file " ++
            dquote ++ "a" ++ dquote ++ "b.txt" ++ dquote]].
Proof. vm_compute. reflexivity. Qed.

(** ** C5 *)

(** C5: discoverFiles changes neither the globals nor the world, its answer
    depends on nothing but the tree at the path, and two calls in a row
    give the same list and the same error. *)
Theorem C5_discovery_is_repeatable :
  forall (dirPath : string) (st st' : State Cli.Globals),
    tree_at (world st) dirPath = tree_at (world st') dirPath ->
    fst (Cli.discoverFiles dirPath st) = fst (Cli.discoverFiles dirPath st') /\
    snd (Cli.discoverFiles dirPath st) = st /\
    exists answer,
      (first <- Cli.discoverFiles dirPath ;;
       second <- Cli.discoverFiles dirPath ;;
       ret (first, second)) st = (Ok (answer, answer), st).
Proof.
  intros dirPath st st' T. rewrite !discoverFiles_run. cbn [fst snd]. rewrite T.
  split; [reflexivity|]. split; [reflexivity|].
  eexists. unfold bind. rewrite !discoverFiles_run. rewrite T. reflexivity.
Qed.

(** The directory of two files, before and after the invoke command has
    run in it. *)
Lemma C5_before_and_after_invoke :
  fst (Cli.discoverFiles "." in_two_files) =
  fst (Cli.discoverFiles "." (snd (Cli.invokeRun ["kubectl"; "apply"] in_two_files))).
Proof.
  exact (proj1 (C5_discovery_is_repeatable "." in_two_files
                  (snd (Cli.invokeRun ["kubectl"; "apply"] in_two_files)) eq_refl)).
Defined.

(** ** C3 *)

(** C3: when the tree under the path fails anywhere, discoverFiles answers
    a nil list and an error and changes nothing; with the working
    directory for the path, the invoke command answers an error without
    printing or running anything, and main ends the process with status 1,
    no command run. *)
Theorem C3_traversal_failure_aborts :
  forall (dirPath : string) (args : list string) (st : State Cli.Globals),
    fails (tree_at (world st) dirPath) = true ->
    exists err,
      is_nil err = false /\
      Cli.discoverFiles dirPath st = (Ok ([], err), st) /\
      (dirPath = "." ->
       Cli.invokeRun args st = (Ok (Wrapf "failed to discover files: " err ""), st) /\
       (args <> [] ->
        exists st',
          Cli.main ("invoke" :: args) st = (Exit 1, st') /\
          globals st' = globals st /\
          ran (world st') = ran (world st) /\
          stdout (world st') = stdout (world st))).
Proof.
  intros dirPath args st F.
  destruct (found_fails dirPath _ F) as (err & N & E).
  exists (Wrapf "failed to discover files: " err ""). split; [reflexivity|].
  split; [rewrite discoverFiles_run, E; reflexivity|].
  intros ->.
  assert (R : Cli.invokeRun args st =
              (Ok (Wrapf "failed to discover files: "
                         (Wrapf "failed to discover files: " err "") ""), st))
    by (apply invokeRun_discovery_failed; [reflexivity | exact E]).
  split; [exact R|].
  intros A. destruct args as [|a args]; [now elim A|].
  unfold Cli.main, Cli.Execute. cbn [String.eqb Ascii.eqb Bool.eqb List.length Nat.leb].
  unfold bind at 1. rewrite R. cbn [is_nil negb]. run_monad.
  eexists. split; [reflexivity|]. cbn. auto.
Qed.

(** A directory with a file and, after it, an entry lstat fails on. *)
Definition broken_directory : Entry :=
  Dir None [("a.txt", File); ("b.yaml", Gone false EACCES)].

Definition in_broken_directory : State Cli.Globals :=
  {| globals := some_cluster; world := a_world [] broken_directory quiet |}.

Lemma C3_broken_directory :
  exists err,
    is_nil err = false /\
    Cli.discoverFiles "." in_broken_directory = (Ok ([], err), in_broken_directory) /\
    ("." = "." ->
     Cli.invokeRun ["kubectl"; "apply"] in_broken_directory =
       (Ok (Wrapf "failed to discover files: " err ""), in_broken_directory) /\
     (["kubectl"; "apply"] <> [] ->
      exists st',
        Cli.main ("invoke" :: ["kubectl"; "apply"]) in_broken_directory = (Exit 1, st') /\
        globals st' = globals in_broken_directory /\
        ran (world st') = ran (world in_broken_directory) /\
        stdout (world st') = stdout (world in_broken_directory))).
Proof.
  exact (C3_traversal_failure_aborts "." ["kubectl"; "apply"] in_broken_directory eq_refl).
Defined.

(** There the walk has met a.txt when it fails: the list it holds is not
    the list discoverFiles answers. *)
Example the_walked_files_are_dropped :
  Filepath.Walk (Cli.discoverFiles_fn ".") "." broken_directory [] =
    (PathError "lstat" "b.yaml" EACCES, ["a.txt"]) /\
  fst (Cli.discoverFiles "." in_broken_directory) =
    Ok ([], Wrapf "failed to discover files: " (PathError "lstat" "b.yaml" EACCES) "").
Proof. vm_compute. split; reflexivity. Qed.

(** ** C4 and C9: credentials *)

Definition missing_credentials : error :=
  Errorf "missing required environment variables: AZURE_APP_ID, AZURE_CLIENT_SECRET, AZURE_TENANT_ID".

Section Credentials.

(** A variable that is not in the environment reads as the empty
    string, like one that is set to it. *)
Lemma lookup_env_missing (key : string) (env : list (string * string)) :
  (forall v, ~ In (key, v) env) -> lookup_env key env = EmptyString.
Proof.
  induction env as [|[k v] env IH]; intros H; simpl; [reflexivity|].
  destruct (String.eqb_spec k key) as [->|_].
  - elim (H v). now left.
  - apply IH. intros v' I. apply (H v'). now right.
Qed.

(** loadCredentials, run: an error or nil, by the three variables alone;
    the globals stay. *)
Lemma loadCredentials_run (st : State Cli.Globals) :
  let env := environ (world st) in
  let complete :=
    negb ((lookup_env "AZURE_APP_ID" env =? "") ||
          (lookup_env "AZURE_CLIENT_SECRET" env =? "") ||
          (lookup_env "AZURE_TENANT_ID" env =? "")) in
  fst (Cli.loadCredentials st) = Ok (if complete then Nil else missing_credentials) /\
  globals (snd (Cli.loadCredentials st)) = globals st /\
  ran (world (snd (Cli.loadCredentials st))) = ran (world st) /\
  environ (world (snd (Cli.loadCredentials st))) = environ (world st) /\
  proc (world (snd (Cli.loadCredentials st))) = proc (world st) /\
  (complete = false -> snd (Cli.loadCredentials st) = st).
Proof.
  intros env complete. subst complete. unfold Cli.loadCredentials. run_monad. fold env.
  destruct ((lookup_env "AZURE_APP_ID" env =? "") ||
            (lookup_env "AZURE_CLIENT_SECRET" env =? "") ||
            (lookup_env "AZURE_TENANT_ID" env =? "")); cbn; repeat split; auto;
    discriminate.
Qed.

End Credentials.

(** C4: with one of the three variables missing or empty, authenticate
    answers the error of loadCredentials, wrapped, and leaves globals and
    world as they were: no command has run. *)
Theorem C4_missing_credentials_no_subprocess :
  forall (st : State Cli.Globals),
    lookup_env "AZURE_APP_ID" (environ (world st)) = EmptyString \/
    lookup_env "AZURE_CLIENT_SECRET" (environ (world st)) = EmptyString \/
    lookup_env "AZURE_TENANT_ID" (environ (world st)) = EmptyString ->
    Cli.authenticate st =
      (Ok (Wrapf "failed to load credentials: " missing_credentials ""), st) /\
    ran (world (snd (Cli.authenticate st))) = ran (world st).
Proof.
  intros st H.
  destruct (loadCredentials_run st) as (R & _ & _ & _ & _ & S).
  assert (C : negb ((lookup_env "AZURE_APP_ID" (environ (world st)) =? "") ||
                    (lookup_env "AZURE_CLIENT_SECRET" (environ (world st)) =? "") ||
                    (lookup_env "AZURE_TENANT_ID" (environ (world st)) =? "")) = false).
  { destruct H as [H|[H|H]]; rewrite H; cbn [String.eqb];
      rewrite ?orb_true_r; reflexivity. }
  cbv zeta in R, S. rewrite C in R. specialize (S C).
  assert (E : Cli.authenticate st =
              (Ok (Wrapf "failed to load credentials: " missing_credentials ""), st)).
  { unfold Cli.authenticate. unfold bind at 1.
    destruct (Cli.loadCredentials st) as [r st1]. cbn [fst snd] in R, S. subst r st1.
    reflexivity. }
  rewrite E. split; reflexivity.
Qed.

(** A process with the secret set and the two other variables not. *)
Definition only_the_secret : State Cli.Globals :=
  {| globals := Cli.zero;
     world := a_world [("AZURE_CLIENT_SECRET", "s3cret")] empty_directory quiet |}.

Lemma C4_only_the_secret :
  Cli.authenticate only_the_secret =
    (Ok (Wrapf "failed to load credentials: " missing_credentials ""), only_the_secret) /\
  ran (world (snd (Cli.authenticate only_the_secret))) = ran (world only_the_secret).
Proof.
  exact (C4_missing_credentials_no_subprocess only_the_secret (or_introl eq_refl)).
Defined.

(** C9: when loadCredentials succeeds the globals are what they were, and
    the login command of authenticate gets, after the environment of the
    process, the three variables with the values the globals had before the
    call. *)
Theorem C9_loadCredentials_leaves_globals :
  forall (st : State Cli.Globals),
    fst (Cli.loadCredentials st) = Ok Nil ->
    globals (snd (Cli.loadCredentials st)) = globals st /\
    exists login,
      ran (world (snd (Cli.authenticate st))) = (ran (world st) ++ [login])%list /\
      argv login = ["az"; "login"; "--service-principal"; "-i"] /\
      cmdEnv login =
        Some (app (map (fun kv => fst kv ++ "=" ++ snd kv) (environ (world st)))
                  ["AZURE_APP_ID=" ++ Cli.appID (globals st);
                   "AZURE_CLIENT_SECRET=" ++ Cli.clientSecret (globals st);
                   "AZURE_TENANT_ID=" ++ Cli.tenantID (globals st)]).
Proof.
  intros st L.
  destruct (loadCredentials_run st) as (_ & G & Rn & En & Pr & _).
  split; [exact G|].
  exists {| argv := ["az"; "login"; "--service-principal"; "-i"];
            cmdEnv := Some (app (map (fun kv => fst kv ++ "=" ++ snd kv)
                                     (environ (world st)))
                                ["AZURE_APP_ID=" ++ Cli.appID (globals st);
                                 "AZURE_CLIENT_SECRET=" ++ Cli.clientSecret (globals st);
                                 "AZURE_TENANT_ID=" ++ Cli.tenantID (globals st)]) |}.
  split; [|split; reflexivity].
  destruct (Cli.authenticate st) as [res st2] eqn:A.
  unfold Cli.authenticate in A. unfold bind at 1 in A.
  destruct (Cli.loadCredentials st) as [r st1]. cbn [fst snd] in *. subst r.
  cbn [is_nil negb] in A. unfold Cli.set_loggedIn in A. run_monad.
  rewrite G, Rn, En, Pr in A.
  destruct (proc (world st) (ran (world st)) _) as [output err] in A.
  destruct (is_nil err); cbn [negb] in A; injection A as <- <-; reflexivity.
Qed.

(** The three variables set in the environment, the globals still empty:
    the login command is given three empty values. *)
Definition with_credentials : State Cli.Globals :=
  {| globals := Cli.zero;
     world := a_world [("AZURE_APP_ID", "app"); ("AZURE_CLIENT_SECRET", "s3cret");
                       ("AZURE_TENANT_ID", "tenant")] empty_directory quiet |}.

Lemma C9_with_credentials :
  globals (snd (Cli.loadCredentials with_credentials)) = globals with_credentials /\
  exists login,
    ran (world (snd (Cli.authenticate with_credentials))) =
      (ran (world with_credentials) ++ [login])%list /\
    argv login = ["az"; "login"; "--service-principal"; "-i"] /\
    cmdEnv login =
      Some (app (map (fun kv => fst kv ++ "=" ++ snd kv) (environ (world with_credentials)))
                ["AZURE_APP_ID=" ++ Cli.appID (globals with_credentials);
                 "AZURE_CLIENT_SECRET=" ++ Cli.clientSecret (globals with_credentials);
                 "AZURE_TENANT_ID=" ++ Cli.tenantID (globals with_credentials)]).
Proof.
  exact (C9_loadCredentials_leaves_globals with_credentials eq_refl).
Defined.

Example login_gets_empty_credentials :
  map cmdEnv (ran (world (snd (Cli.authenticate with_credentials)))) =
  [Some ["AZURE_APP_ID=app"; "AZURE_CLIENT_SECRET=s3cret"; "AZURE_TENANT_ID=tenant";
         "AZURE_APP_ID="; "AZURE_CLIENT_SECRET="; "AZURE_TENANT_ID="]].
Proof. vm_compute. reflexivity. Qed.

(** ** C10: the index in getSubscriptionID *)

(** The element at index 1 of a line that has [id:] in it. *)
Lemma second_part (line : string) :
  Strings.Contains line "id:" = true ->
  exists part, nth_error (Strings.Split line ":") 1 = Some part.
Proof.
  intros C. destruct (Contains_id_colon line C) as [m I].
  assert (L : 2 <= List.length (Strings.Split line ":")).
  { apply (@Split_two line ":" m); [discriminate | exact I]. }
  destruct (nth_error (Strings.Split line ":") 1) as [part|] eqn:N.
  - now exists part.
  - apply nth_error_None in N. lia.
Qed.

(** C10: a line that passes the test for [id:] splits on the colon into at
    least two parts, so the element at index 1 is there, and the loop
    answers it, trimmed, without a panic. *)
Theorem C10_second_part_exists :
  forall (line : string) (lines : list string) (st : State Cli.Globals),
    Strings.Contains line "id:" = true ->
    2 <= List.length (Strings.Split line ":") /\
    exists part,
      nth_error (Strings.Split line ":") 1 = Some part /\
      Cli.scan_lines (line :: lines) st = (Ok (Strings.TrimSpace part, Nil), st).
Proof.
  intros line lines st C.
  destruct (second_part line C) as (part & N).
  split.
  - destruct (Strings.Split line ":") as [|p0 [|p1 parts]]; cbn in N |- *;
      try discriminate; lia.
  - exists part. split; [exact N|].
    cbn [Cli.scan_lines]. rewrite C, N. reflexivity.
Qed.

Lemma C10_a_line_of_yaml :
  2 <= List.length (Strings.Split "id: 1234-abcd" ":") /\
  exists part,
    nth_error (Strings.Split "id: 1234-abcd" ":") 1 = Some part /\
    Cli.scan_lines ["id: 1234-abcd"] with_credentials =
      (Ok (Strings.TrimSpace part, Nil), with_credentials).
Proof.
  exact (C10_second_part_exists "id: 1234-abcd" [] with_credentials eq_refl).
Defined.

Section NoPanic.


End NoPanic.


(** ** C2: the order of the parts of the invocation *)

(** The reading of the specification's sentence that asks least: after the
    fixed prefix come the resource group, the cluster name, the user
    command and the file tokens, in this order, whatever text stands
    between them. *)
Definition in_spec_order (full resourceGroup aksName command fileParams : string) : Prop :=
  exists s0 s1 s2 s3,
    full = "az aks command invoke " ++ s0 ++ resourceGroup ++ s1 ++ aksName ++ s2 ++
           command ++ s3 ++ fileParams.

Lemma string_cons_inv (a b : ascii) (s t : string) :
  String a s = String b t -> a = b /\ s = t.
Proof. intros H. now injection H. Qed.

(** Runs through the ways a known text can be cut into known parts and
    unknown texts between them, and fails when one of them fits. *)
Ltac cut_text H :=
  cbn [append] in H;
  lazymatch type of H with
  | EmptyString = EmptyString => fail "the text can be cut this way"
  | EmptyString = String _ _ => discriminate H
  | String _ _ = EmptyString => discriminate H
  | String _ _ = String _ _ =>
      apply string_cons_inv in H;
      let E := fresh "E" in
      destruct H as [E H];
      first [ discriminate E | try subst; try clear E; cut_text H ]
  | _ = (?x ++ _)%string => destruct x; cut_text H
  end.

(** In the [Sdk] variant the user command stands before the resource
    group: with command get, resource group rg1 and cluster aks1 the
    invocation cannot be cut in the order of the specification. *)
Lemma C2_sdk_puts_the_command_first :
  ~ in_spec_order (Sdk.fullCommand_of "get" "rg1" "aks1" (Sdk.fileParams_of []))
                  "rg1" "aks1" "get" (Sdk.fileParams_of []).
Proof.
  intros (s0 & s1 & s2 & s3 & H).
  cbv [Sdk.fullCommand_of Sdk.fileParams_of fold_left] in H.
  cbn [append] in H.
  do 22 (apply string_cons_inv in H; destruct H as [_ H]).
  cut_text H.
Qed.

Example sdk_invocation :
  Sdk.fullCommand_of "get" "rg1" "aks1" (Sdk.fileParams_of []) =
  "az aks command invoke get --resource-group rg1 --name aks1 ".
Proof. reflexivity. Qed.

(** C2, amended: the [Cli] variant hands to the shell the prefix, the
    resource group, a space, the cluster name, a space, the user command
    and the file tokens, which is the order of the specification; the
    [Sdk] variant hands to it the prefix, the user command, the resource
    group after its flag, the cluster name after its flag, a space and the
    file tokens. *)
Theorem C2_invocation_string :
  forall (args files : list string) (st : State Cli.Globals)
         (command resourceGroup aksName : string) (st' : State Sdk.Globals),
    fst (Cli.discoverFiles "." st) = Ok (files, Nil) ->
    let tokens := flatten (map file_token files) in
    let cli_line := "az aks command invoke " ++ Cli.resourceGroup (globals st) ++ " " ++
                    Cli.aksName (globals st) ++ " " ++ Strings.Join args " " ++ tokens in
    let sdk_line := "az aks command invoke " ++ command ++ " --resource-group " ++
                    resourceGroup ++ " --name " ++ aksName ++ " " ++ tokens in
    ran (world (snd (Cli.invokeRun args st)))
      = (ran (world st) ++ [Command "bash" ["-c"; cli_line]])%list /\
    in_spec_order cli_line (Cli.resourceGroup (globals st)) (Cli.aksName (globals st))
                  (Strings.Join args " ") tokens /\
    ran (world (snd (Sdk.executeAzAksCommand command resourceGroup aksName files st')))
      = (ran (world st') ++ [Command "bash" ["-c"; sdk_line]])%list.
Proof.
  intros args files st command resourceGroup aksName st' D tokens cli_line sdk_line.
  rewrite discoverFiles_run in D. cbn [fst] in D. injection D as D.
  destruct (invokeRun_discovered args st D) as (R & _ & _).
  split; [|split].
  - rewrite R. unfold Cli.fullCommand_of. rewrite fileParams_flatten. reflexivity.
  - exists EmptyString, " ", " ", EmptyString. reflexivity.
  - destruct (Sdk.executeAzAksCommand command resourceGroup aksName files st')
      as [res st2] eqn:X.
    unfold Sdk.executeAzAksCommand in X. run_monad.
    unfold Sdk.fullCommand_of in X. rewrite Sdk_fileParams_flatten in X.
    fold tokens in X. fold sdk_line in X.
    destruct (proc (world st') (ran (world st')) _) as [output err] in X.
    destruct (is_nil err); cbn [negb] in X; injection X as <- <-; reflexivity.
Qed.

Lemma C2_two_files :
  ran (world (snd (Cli.invokeRun ["kubectl"; "apply"] in_two_files))) =
  [Command "bash"
     ["-c"; "az aks command invoke rg aks kubectl apply" ++
            flatten (map file_token ["a.txt"; "b.yaml"])]].
Proof.
  assert (D : fst (Cli.discoverFiles "." in_two_files) = Ok (["a.txt"; "b.yaml"], Nil))
    by reflexivity.
  exact (proj1 (C2_invocation_string ["kubectl"; "apply"] in_two_files
                  "get" "rg1" "aks1" {| globals := Sdk.zero; world := world in_two_files |} D)).
Defined.

(** ** C7: the subscription after setSubscription *)

(** An external CLI that does what it is asked: [account set] always
    succeeds, and [account show] prints the subscription set last. *)
Definition last_set (hist : list Cmd) : string :=
  fold_left (fun sub c =>
               match argv c with
               | ["az"; "account"; "set"; "--subscription"; x] => x
               | _ => sub
               end) hist EmptyString.

Definition obedient_az : list Cmd -> Cmd -> string * error :=
  fun hist c =>
    match argv c with
    | ["az"; "account"; "show"] => ("id: " ++ last_set hist ++ nl, Nil)
    | _ => (EmptyString, Nil)
    end.

(** A process of the [Cli] variant that is logged in. *)
Definition logged_in : State Cli.Globals :=
  {| globals := {| Cli.appID := "app"; Cli.clientSecret := "s3cret"; Cli.tenantID := "tenant";
                   Cli.loggedIn := true; Cli.resourceGroup := "rg"; Cli.aksName := "aks" |};
     world := a_world [] empty_directory obedient_az |}.



Example status_after_team_dev :
  (_ <- Cli.setSubscription "team:dev" ;; Cli.statusRun []) logged_in =
  (Ok Nil,
   {| globals := globals logged_in;
      world := {| environ := []; tree_at := fun _ => empty_directory; proc := obedient_az;
                  sdkLogin := fun _ _ _ => Nil; sdkClient := Nil;
                  ran := [Command "az" ["account"; "set"; "--subscription"; "team:dev"];
                          Command "az" ["account"; "show"]];
                  stdout := ["Set active subscription to: team:dev" ++ nl;
                             "Current Status:" ++ nl;
                             "  Logged In: true" ++ nl;
                             "  Subscription ID: team" ++ nl];
                  stderr := [] |} |}).
Proof. reflexivity. Qed.




(** The status main prints in that variant when it starts: with the
    credentials there, the two SDK calls succeeding and AZURE_SUBSCRIPTION
    set to an override, the subscription of the status is the override. *)
Lemma Sdk_main_status (st : State Sdk.Globals) (override : string) :
  let env := environ (world st) in
  lookup_env "AZURE_APP_ID" env <> EmptyString ->
  lookup_env "AZURE_CLIENT_SECRET" env <> EmptyString ->
  lookup_env "AZURE_TENANT_ID" env <> EmptyString ->
  sdkLogin (world st) (lookup_env "AZURE_APP_ID" env) (lookup_env "AZURE_CLIENT_SECRET" env)
           (lookup_env "AZURE_TENANT_ID" env) = Nil ->
  sdkClient (world st) = Nil ->
  lookup_env "AZURE_SUBSCRIPTION" env = override ->
  override <> EmptyString ->
  fst (Sdk.main None st) = Ok tt /\
  last (stdout (world (snd (Sdk.main None st)))) EmptyString =
    "Current Status:" ++ nl ++ "  Logged In: true" ++ nl ++
    "  Subscription ID: " ++ override ++ nl.
Proof.
  intros env A B C L K O N.
  apply String.eqb_neq in A, B, C, N.
  destruct (Sdk.main None st) as [res st'] eqn:R.
  unfold Sdk.main, Sdk.authenticate, Sdk.setSubscription, Sdk.getSubscription,
    Sdk.set_loggedIn, Sdk.set_currentSubID in R.
  run_monad. fold env in R.
  destruct ((lookup_env "RESOURCEGROUP" env =? "") || (lookup_env "AKSNAME" env =? "")) in R;
    cbn [globals world environ sdkLogin sdkClient stdout] in R; fold env in R;
    rewrite A, B, C in R; cbn [orb] in R;
    cbn [globals world environ sdkLogin sdkClient stdout] in R; fold env in R;
    rewrite L in R; cbn [is_nil negb] in R;
    cbn [globals world environ sdkLogin sdkClient stdout] in R; fold env in R;
    rewrite O, N in R; cbn [is_nil negb Sdk.loggedIn Sdk.currentSubID] in R;
    cbn [globals world environ sdkLogin sdkClient stdout] in R;
    rewrite K in R; cbn [is_nil negb Sdk.loggedIn Sdk.currentSubID globals world stdout] in R;
    injection R as <- <-; cbn [fst snd world stdout];
    (split; [reflexivity|]); rewrite ?last_last; reflexivity.
Qed.

(** ** C8: the walk and the flat listing *)


(** A directory with a file and a subdirectory that holds a file. *)
Definition nested_directory : Entry :=
  Dir None [("a.txt", File); ("sub", Dir None [("b.yaml", File)])].

Example walk_goes_down :
  fst (Cli.discoverFiles "." {| globals := Cli.zero;
                                world := a_world [] nested_directory quiet |})
  = Ok (["a.txt"; "sub/b.yaml"], Nil).
Proof. reflexivity. Qed.

Example ReadDir_stays :
  fst (Sdk.discoverFiles "." {| globals := Sdk.zero;
                                world := a_world [] nested_directory quiet |})
  = Ok (["a.txt"], Nil).
Proof. reflexivity. Qed.


(** A name a directory can hold: not empty, no separator in it. *)
Definition entry_name (name : string) : Prop :=
  name <> EmptyString /\ Strings.Contains name "/" = false.


Section FlatDirectory.
Variable dirPath : string.







End FlatDirectory.



(** * Further properties of the program *)

(** ** What the walk of discoverFiles lists *)

(** The files of a tree with their paths, as a listing by hand would give
    them: a file is its own path, a directory gives the files of its
    entries, entry after entry. *)
Fixpoint files_under (path : string) (e : Entry) : list string :=
  match e with
  | File => [path]
  | Gone _ _ => []
  | Dir _ entries =>
      flat_map (fun ne => files_under (Filepath.Join path (fst ne)) (snd ne)) entries
  end.

Definition entry_nameb (name : string) : bool :=
  negb (name =? EmptyString) && negb (Strings.Contains name "/").

(** Every name in the tree is one a directory can hold. *)
Fixpoint well_named (e : Entry) : bool :=
  match e with
  | Dir _ entries => forallb (fun ne => entry_nameb (fst ne) && well_named (snd ne)) entries
  | _ => true
  end.

(** The last character of a text. *)
Fixpoint last_char (s : string) : option ascii :=
  match s with
  | EmptyString => None
  | String c EmptyString => Some c
  | String _ s' => last_char s'
  end.

Definition slash : ascii := ascii_of_nat 47.

Section Paths.

Lemma entry_nameb_spec (name : string) : entry_nameb name = true <-> entry_name name.
Proof.
  unfold entry_nameb, entry_name. rewrite andb_true_iff, !negb_true_iff, String.eqb_neq.
  tauto.
Qed.

Lemma last_char_app (a b : string) :
  b <> EmptyString -> last_char (a ++ b) = last_char b.
Proof.
  intros B. induction a as [|c a IH]; [reflexivity|].
  cbn [append last_char]. destruct (a ++ b) eqn:E; [|exact IH].
  destruct a; [now elim B | discriminate E].
Qed.

(** A text with no separator in it does not end with one. *)
Lemma last_char_no_slash (name : string) :
  Strings.Contains name "/" = false -> last_char name <> Some slash.
Proof.
  unfold Strings.Contains. induction name as [|c name IH]; [discriminate|].
  rewrite Index_unfold. cbn [String.prefix].
  destruct (ascii_dec "/" c) as [<-|N].
  - destruct name; discriminate.
  - destruct (Strings.Index name "/") eqn:I; [discriminate|]. intros _.
    cbn [last_char]. destruct name as [|d name].
    + intros E. injection E as ->. now elim N.
    + now apply IH.
Qed.

(** The path of an entry ends as the name of the entry ends. *)
Lemma last_char_Join (path name : string) :
  name <> EmptyString -> last_char (Filepath.Join path name) = last_char name.
Proof.
  intros N. unfold Filepath.Join.
  destruct (path =? "."); [reflexivity|].
  destruct (path =? EmptyString); [reflexivity|].
  destruct (path =? "/").
  - now apply (last_char_app "/").
  - rewrite last_char_app; [now apply (last_char_app "/")|].
    destruct name; discriminate.
Qed.

(** No path of an entry is the path the function literal of discoverFiles
    compares with: the root with a separator after it. *)
Lemma Join_never_root (dirPath path name : string) :
  entry_name name -> (Filepath.Join path name =? dirPath ++ "/") = false.
Proof.
  intros [N S]. apply String.eqb_neq. intros E.
  apply (last_char_no_slash name S).
  rewrite <- (last_char_Join path N), E.
  now apply last_char_app.
Qed.

Lemma root_not_root (dirPath : string) : (dirPath =? dirPath ++ "/") = false.
Proof.
  apply String.eqb_neq. intros E. apply (f_equal String.length) in E.
  rewrite length_append in E. cbn in E. lia.
Qed.

Lemma forallb_insert (f : string * Entry -> bool) x l :
  forallb f (Filepath.insert_by_name x l) = f x && forallb f l.
Proof.
  induction l as [|y l IH]; simpl; [reflexivity|].
  destruct (String.leb (fst x) (fst y)); simpl; [reflexivity|].
  rewrite IH. destruct (f x), (f y); reflexivity.
Qed.

Lemma forallb_sort (f : string * Entry -> bool) l :
  forallb f (Filepath.sort_by_name l) = forallb f l.
Proof.
  induction l as [|y l IH]; simpl; [reflexivity|].
  now rewrite forallb_insert, IH.
Qed.

Lemma well_named_sorted (e : Entry) : well_named (Filepath.sorted e) = well_named e.
Proof.
  induction e as [| |rd entries IH] using Entry_induction; try reflexivity.
  cbn [Filepath.sorted well_named]. rewrite forallb_sort.
  induction IH as [|ne l H _ IHl]; [reflexivity|].
  cbn [map forallb fst snd]. now rewrite H, IHl.
Qed.

End Paths.

Section WalkLists.
Variable dirPath : string.

(** On a tree that does not fail the walk appends, to the files it holds,
    the files of the tree in the order of the tree. *)
Lemma walk_lists (e : Entry) :
  forall path files,
    well_named e = true -> fails e = false ->
    (path =? dirPath ++ "/") = false ->
    Filepath.walk (Cli.discoverFiles_fn dirPath) path e files =
      (Nil, app files (files_under path e)).
Proof.
  induction e as [| |rd entries IH] using Entry_induction; intros path files W F R.
  - cbn [Filepath.walk files_under]. unfold Cli.discoverFiles_fn.
    cbn [is_nil negb IsDir andb]. rewrite R. reflexivity.
  - discriminate F.
  - destruct rd as [errno|]; [discriminate F|].
    cbn [Filepath.walk fails well_named files_under] in *.
    unfold Cli.discoverFiles_fn at 1. cbn [is_nil negb IsDir andb orb]. cbv iota beta.
    revert files W F.
    induction IH as [|[name child] l H _ IHl]; intros files W F.
    + cbn. now rewrite app_nil_r.
    + cbn [forallb existsb fst snd flat_map] in *.
      apply andb_true_iff in W. destruct W as [W Wl].
      apply andb_true_iff in W. destruct W as [Wn Wc].
      apply orb_false_iff in F. destruct F as [Fc Fl].
      apply entry_nameb_spec in Wn.
      rewrite (H (Filepath.Join path name) files Wc Fc (Join_never_root dirPath path Wn)).
      cbn [is_nil negb andb].
      destruct child; try discriminate Fc; rewrite (IHl _ Wl Fl), <- app_assoc; reflexivity.
Qed.

End WalkLists.


(** A directory with files at three depths, listed out of order. *)
Definition deep_directory : Entry :=
  Dir None [("z.txt", File);
            ("k8s", Dir None [("svc.yaml", File);
                              ("base", Dir None [("ns.yaml", File)]);
                              ("app.yaml", File)]);
            (".env", File)].



(** X2: when the path itself is a file, discoverFiles answers that path
    alone: the test against the path with a separator after it leaves
    nothing out, not the root either. *)
Theorem X2_root_file_is_listed :
  forall (dirPath : string) (st : State Cli.Globals),
    tree_at (world st) dirPath = File ->
    Cli.discoverFiles dirPath st = (Ok ([dirPath], Nil), st).
Proof.
  intros dirPath st T. rewrite discoverFiles_run, T.
  unfold found, Filepath.Walk. cbn [Filepath.sorted Filepath.walk].
  unfold Cli.discoverFiles_fn. cbn [is_nil negb IsDir andb]. rewrite root_not_root.
  reflexivity.
Qed.

Lemma X2_a_manifest :
  Cli.discoverFiles "deploy.yaml"
    {| globals := some_cluster; world := a_world [] File quiet |} =
  (Ok (["deploy.yaml"], Nil), {| globals := some_cluster; world := a_world [] File quiet |}).
Proof.
  exact (X2_root_file_is_listed "deploy.yaml"
           {| globals := some_cluster; world := a_world [] File quiet |} eq_refl).
Defined.

(** ** What the flat listing lists *)

Definition not_a_directory (ne : string * Entry) : bool := negb (entry_IsDir (snd ne)).

Section FlatListing.
Variable dir : string.

Lemma collect_from (entries : list (string * Entry)) (files : list string) :
  fold_left (fun files entry =>
               if negb (entry_IsDir (snd entry))
               then app files [Filepath.Join dir (fst entry)]
               else files) entries files
  = app files (map (fun ne => Filepath.Join dir (fst ne)) (filter not_a_directory entries)).
Proof.
  revert files. induction entries as [|ne l IH]; intros files.
  - cbn. now rewrite app_nil_r.
  - cbn [fold_left filter]. unfold not_a_directory at 1.
    destruct (negb (entry_IsDir (snd ne))); rewrite IH; [|reflexivity].
    cbn [map]. now rewrite <- app_assoc.
Qed.

Lemma Sdk_discoverFiles_run (st : State Sdk.Globals) (entries : list (string * Entry)) :
  tree_at (world st) dir = Dir None entries ->
  Sdk.discoverFiles dir st =
    (Ok (map (fun ne => Filepath.Join dir (fst ne))
             (filter not_a_directory (Filepath.sort_by_name entries)), Nil), st).
Proof.
  intros T. unfold Sdk.discoverFiles. run_monad. rewrite T.
  cbn [ReadDir is_nil negb]. unfold Sdk.collect. now rewrite collect_from.
Qed.

End FlatListing.


(** A directory with a hidden file, a file and a subdirectory. *)
Definition with_hidden_file : Entry :=
  Dir None [("pod.yaml", File); (".env", File); ("charts", Dir None [("c.yaml", File)])].


Example hidden_file_is_listed :
  fst (Sdk.discoverFiles "." {| globals := Sdk.zero;
                                world := a_world [] with_hidden_file quiet |})
  = Ok ([".env"; "pod.yaml"], Nil).
Proof. reflexivity. Qed.

(** X4: where the walk succeeds on a directory, every path the flat
    listing answers is among the paths the walk answers: the walk variant
    attaches all the flat variant attaches, and the files below. *)
Theorem X4_flat_listing_within_walk :
  forall (w : World) (dir : string) (g : Cli.Globals) (g' : Sdk.Globals)
         (entries : list (string * Entry)),
    tree_at w dir = Dir None entries ->
    fails (Dir None entries) = false ->
    well_named (Dir None entries) = true ->
    exists flat deep,
      fst (Sdk.discoverFiles dir {| globals := g'; world := w |}) = Ok (flat, Nil) /\
      fst (Cli.discoverFiles dir {| globals := g; world := w |}) = Ok (deep, Nil) /\
      incl flat deep.
Proof.
  intros w dir g g' entries T F W.
  exists (map (fun ne => Filepath.Join dir (fst ne))
              (filter not_a_directory (Filepath.sort_by_name entries))),
         (files_under dir (Filepath.sorted (Dir None entries))).
  split; [|split].
  - now rewrite (@Sdk_discoverFiles_run dir {| globals := g'; world := w |} entries T).
  - rewrite discoverFiles_run. cbn [world fst]. rewrite T. unfold found, Filepath.Walk.
    rewrite (@walk_lists dir (Filepath.sorted (Dir None entries)) dir []);
      [reflexivity | now rewrite well_named_sorted | now rewrite fails_sorted
      | apply root_not_root].
  - intros path I. apply in_map_iff in I. destruct I as ([name e] & <- & I).
    apply filter_In in I. destruct I as [I D]. rewrite In_sort in I.
    unfold not_a_directory in D. cbn [snd fst] in *.
    cbn [fails] in F. rewrite <- not_true_iff_false, existsb_exists in F.
    assert (E : e = File).
    { destruct e as [|rd l|d x]; [reflexivity | discriminate D |].
      elim F. exists (name, Gone d x). auto. }
    subst e. cbn [Filepath.sorted files_under]. apply in_flat_map.
    exists (name, File). split; [|now left].
    apply In_sort. apply in_map_iff. exists (name, File). auto.
Qed.

Lemma X4_deep_directory :
  exists flat deep,
    fst (Sdk.discoverFiles "." {| globals := Sdk.zero;
                                  world := a_world [] deep_directory quiet |})
      = Ok (flat, Nil) /\
    fst (Cli.discoverFiles "." {| globals := Cli.zero;
                                  world := a_world [] deep_directory quiet |})
      = Ok (deep, Nil) /\
    incl flat deep.
Proof.
  exact (X4_flat_listing_within_walk (a_world [] deep_directory quiet) "."
           Cli.zero Sdk.zero eq_refl eq_refl eq_refl).
Defined.

(** ** The CLI variant: login, status, commands *)

(** The login command of authenticate, for the globals and the environment
    of a state. *)
Definition login_of (st : State Cli.Globals) : Cmd :=
  {| argv := ["az"; "login"; "--service-principal"; "-i"];
     cmdEnv := Some (app (map (fun kv => fst kv ++ "=" ++ snd kv) (environ (world st)))
                         ["AZURE_APP_ID=" ++ Cli.appID (globals st);
                          "AZURE_CLIENT_SECRET=" ++ Cli.clientSecret (globals st);
                          "AZURE_TENANT_ID=" ++ Cli.tenantID (globals st)]) |}.

(** The three variables are there and not empty. *)
Definition credentials_complete (w : World) : bool :=
  negb ((lookup_env "AZURE_APP_ID" (environ w) =? "") ||
        (lookup_env "AZURE_CLIENT_SECRET" (environ w) =? "") ||
        (lookup_env "AZURE_TENANT_ID" (environ w) =? "")).

(** X5: authenticate answers nil exactly when the three variables are
    there and the login command succeeds; it runs the login command exactly
    when the variables are there; the login flag after it is the flag
    before or that success, so a failed login never clears it; and it
    assigns no other global. *)
Theorem X5_authenticate_outcome :
  forall (st : State Cli.Globals),
    let after := snd (Cli.authenticate st) in
    let answer := proc (world st) (ran (world st)) (login_of st) in
    let success := credentials_complete (world st) && is_nil (snd answer) in
    fst (Cli.authenticate st) =
      Ok (if credentials_complete (world st)
          then if is_nil (snd answer) then Nil
               else Wrapf "authentication failed: " (snd answer)
                          (nl ++ "Output:" ++ nl ++ fst answer)
          else Wrapf "failed to load credentials: " missing_credentials "") /\
    ran (world after) =
      (if credentials_complete (world st) then app (ran (world st)) [login_of st]
       else ran (world st)) /\
    Cli.loggedIn (globals after) = Cli.loggedIn (globals st) || success /\
    Cli.appID (globals after) = Cli.appID (globals st) /\
    Cli.clientSecret (globals after) = Cli.clientSecret (globals st) /\
    Cli.tenantID (globals after) = Cli.tenantID (globals st) /\
    Cli.resourceGroup (globals after) = Cli.resourceGroup (globals st) /\
    Cli.aksName (globals after) = Cli.aksName (globals st).
Proof.
  intros st after answer success. subst after success.
  destruct (Cli.authenticate st) as [res st'] eqn:A.
  unfold Cli.authenticate, Cli.loadCredentials, Cli.set_loggedIn in A. run_monad.
  unfold credentials_complete.
  destruct ((lookup_env "AZURE_APP_ID" (environ (world st)) =? "") ||
            (lookup_env "AZURE_CLIENT_SECRET" (environ (world st)) =? "") ||
            (lookup_env "AZURE_TENANT_ID" (environ (world st)) =? "")).
  - cbn in A. injection A as <- <-. cbn. rewrite orb_false_r. repeat split.
  - cbn [negb is_nil andb] in A |- *. run_monad. fold (login_of st) in A. fold answer in A.
    destruct answer as [output err]. cbn [fst snd].
    destruct (is_nil err); cbn [negb] in A; injection A as <- <-; cbn;
      rewrite ?orb_true_r, ?orb_false_r; repeat split.
Qed.

(** X6: the status command of a process that has not logged in itself
    answers the error without asking the CLI: main ends with status 1, no
    command run, nothing on standard output.  The flag is false when a
    process starts and only the auth command of the same process sets
    it. *)
Theorem X6_status_without_login :
  forall (args : list string) (st : State Cli.Globals),
    Cli.loggedIn (globals st) = false ->
    Cli.statusRun args st = (Ok (Errorf "not logged in - run 'xks auth' first"), st) /\
    exists st',
      Cli.main ("status" :: args) st = (Exit 1, st') /\
      globals st' = globals st /\
      ran (world st') = ran (world st) /\
      stdout (world st') = stdout (world st) /\
      stderr (world st') =
        app (stderr (world st)) ["not logged in - run 'xks auth' first" ++ nl].
Proof.
  intros args st L.
  assert (S : Cli.statusRun args st = (Ok (Errorf "not logged in - run 'xks auth' first"), st)).
  { unfold Cli.statusRun. run_monad. rewrite L. reflexivity. }
  split; [exact S|].
  unfold Cli.main, Cli.Execute. cbn [String.eqb Ascii.eqb Bool.eqb].
  unfold bind at 1. rewrite S. cbn [is_nil negb]. run_monad.
  eexists. split; [reflexivity|]. cbn. auto.
Qed.

(** A process that starts, whatever the world: the status command fails. *)
Lemma X6_fresh_process :
  Cli.statusRun [] {| globals := Cli.zero; world := a_world [] empty_directory obedient_az |}
    = (Ok (Errorf "not logged in - run 'xks auth' first"),
       {| globals := Cli.zero; world := a_world [] empty_directory obedient_az |}) /\
  exists st',
    Cli.main ("status" :: [])
             {| globals := Cli.zero; world := a_world [] empty_directory obedient_az |}
      = (Exit 1, st') /\
    globals st' = Cli.zero /\
    ran (world st') = [] /\
    stdout (world st') = [] /\
    stderr (world st') = app [] ["not logged in - run 'xks auth' first" ++ nl].
Proof.
  exact (X6_status_without_login []
           {| globals := Cli.zero; world := a_world [] empty_directory obedient_az |}
           eq_refl).
Defined.


Section Returns.








End Returns.


(** ** The CLI variant: the subscription asked from the CLI *)

Definition has_id (line : string) : bool := Strings.Contains line "id:".

Definition no_subscription : string * error :=
  (EmptyString, Errorf "unable to extract subscription ID from output").

Section FirstIdLine.

(** The loop over the lines is a search for the first line with [id:]. *)
Lemma scan_lines_find (lines : list string) (st : State Cli.Globals) :
  Cli.scan_lines lines st =
    (Ok match find has_id lines with
        | Some line => (Strings.TrimSpace (nth 1 (Strings.Split line ":") EmptyString), Nil)
        | None => no_subscription
        end, st).
Proof.
  induction lines as [|line lines IH]; cbn [Cli.scan_lines find]; [reflexivity|].
  unfold has_id at 1. destruct (Strings.Contains line "id:") eqn:C; [|exact IH].
  destruct (second_part line C) as (part & N). rewrite N.
  now rewrite (nth_error_nth _ _ EmptyString N).
Qed.

End FirstIdLine.

(** X8: getSubscriptionID runs [az account show] once and assigns no
    global.  If the command fails, it answers the empty string and the
    error with the output in it.  Otherwise the first line of the output
    that has [id:] in it decides alone: the answer is the text between its
    first and second colon, trimmed, whatever the lines after it say; with
    no such line the answer is an error. *)
Theorem X8_first_id_line_decides :
  forall (st : State Cli.Globals),
    let show := Command "az" ["account"; "show"] in
    let answer := proc (world st) (ran (world st)) show in
    fst (Cli.getSubscriptionID st) =
      Ok (if is_nil (snd answer)
          then match find has_id (Strings.Split (fst answer) nl) with
               | Some line =>
                   (Strings.TrimSpace (nth 1 (Strings.Split line ":") EmptyString), Nil)
               | None => no_subscription
               end
          else (EmptyString,
                Wrapf "failed to get subscription ID: " (snd answer)
                      (nl ++ "Output:" ++ nl ++ fst answer))) /\
    ran (world (snd (Cli.getSubscriptionID st))) = app (ran (world st)) [show] /\
    globals (snd (Cli.getSubscriptionID st)) = globals st.
Proof.
  intros st show answer.
  destruct (Cli.getSubscriptionID st) as [res st'] eqn:R.
  unfold Cli.getSubscriptionID in R. run_monad. fold show in R. fold answer in R.
  destruct answer as [output err]. cbn [fst snd].
  destruct (is_nil err); cbn [negb] in R.
  - rewrite scan_lines_find in R. injection R as <- <-. cbn. auto.
  - injection R as <- <-. cbn. auto.
Qed.

(** Two lines with [id:]: the first one is the answer. *)
Example first_of_two_id_lines :
  fst (Cli.getSubscriptionID
         {| globals := Cli.zero;
            world := a_world [] empty_directory
                       (fun _ _ => ("tenantid: t-1" ++ nl ++ "id: s-1" ++ nl, Nil)) |})
  = Ok ("t-1", Nil).
Proof. vm_compute. reflexivity. Qed.

(** ** The CLI variant: what the invoke command prints and names *)

Section InvokePrints.

(** The invoke command after a discovery that succeeded, state and all. *)
Lemma invokeRun_prints (args files : list string) (st : State Cli.Globals) :
  found "." (tree_at (world st) ".") = (files, Nil) ->
  let line := Cli.fullCommand_of (Cli.resourceGroup (globals st)) (Cli.aksName (globals st))
                                 (Strings.Join args " ") (Cli.fileParams_of files) in
  let answer := proc (world st) (ran (world st)) (Command "bash" ["-c"; line]) in
  stdout (world (snd (Cli.invokeRun args st))) =
    app (stdout (world st))
        (if is_nil (snd answer) then [line ++ nl; fst answer ++ nl] else [line ++ nl]) /\
  stderr (world (snd (Cli.invokeRun args st))) =
    app (stderr (world st))
        (if is_nil (snd answer) then []
         else ["Error executing command: " ++ Error (snd answer) ++ nl ++
               "Output:" ++ nl ++ fst answer ++ nl]).
Proof.
  intros E line answer.
  destruct (Cli.invokeRun args st) as [res st'] eqn:R.
  unfold Cli.invokeRun in R. unfold bind at 1 in R. rewrite discoverFiles_run, E in R.
  cbn [is_nil negb] in R. run_monad.
  fold line in R. fold answer in R.
  destruct answer as [output err]. cbn [fst snd].
  destruct (is_nil err); cbn [negb] in R; injection R as <- <-; cbn [snd world stdout stderr].
  - rewrite <- app_assoc, app_nil_r. auto.
  - auto.
Qed.

End InvokePrints.

(** X9: after a discovery that succeeded, the invoke command prints the
    command line and then, when the shell succeeds, the output of the
    command and nothing on standard error; when the shell fails the output
    is not printed, one entry is logged on standard error, and the error
    is answered wrapped. *)
Theorem X9_invoke_output_and_failure :
  forall (args files : list string) (st : State Cli.Globals),
    fst (Cli.discoverFiles "." st) = Ok (files, Nil) ->
    let line := Cli.fullCommand_of (Cli.resourceGroup (globals st)) (Cli.aksName (globals st))
                                   (Strings.Join args " ") (Cli.fileParams_of files) in
    let answer := proc (world st) (ran (world st)) (Command "bash" ["-c"; line]) in
    let after := snd (Cli.invokeRun args st) in
    fst (Cli.invokeRun args st) =
      Ok (if is_nil (snd answer) then Nil else Wrapf "command failed: " (snd answer) "") /\
    stdout (world after) =
      app (stdout (world st))
          (if is_nil (snd answer) then [line ++ nl; fst answer ++ nl] else [line ++ nl]) /\
    exists logged,
      stderr (world after) =
        app (stderr (world st)) (if is_nil (snd answer) then [] else [logged]).
Proof.
  intros args files st D line answer after.
  rewrite discoverFiles_run in D. cbn [fst] in D. injection D as D.
  destruct (invokeRun_discovered args st D) as (_ & A & _).
  destruct (invokeRun_prints args st D) as (O & E).
  split; [exact A|]. split; [exact O|].
  eexists. subst after. rewrite E. fold line. fold answer.
  destruct (is_nil (snd answer)); reflexivity.
Qed.

(** A shell on which every command fails with status 1 and one line of
    output. *)
Definition failing_shell : list Cmd -> Cmd -> string * error :=
  fun _ _ => ("error: unknown command", ExitError 1).

Definition in_two_files_failing : State Cli.Globals :=
  {| globals := some_cluster; world := a_world [] two_files failing_shell |}.

Lemma X9_failing_shell :
  fst (Cli.invokeRun ["kubectl"; "apply"] in_two_files_failing) =
    Ok (Wrapf "command failed: " (ExitError 1) "").
Proof.
  assert (D : fst (Cli.discoverFiles "." in_two_files_failing)
              = Ok (["a.txt"; "b.yaml"], Nil)) by reflexivity.
  exact (proj1 (X9_invoke_output_and_failure ["kubectl"; "apply"] in_two_files_failing D)).
Defined.

(** X10: a process that starts names no resource group and no cluster:
    nothing in this variant assigns the two globals, the variables
    RESOURCEGROUP and AKSNAME are not read, so the command line handed to
    the shell has three spaces between the prefix and the user command,
    whatever the environment holds. *)
Theorem X10_fresh_process_names_no_cluster :
  forall (w : World) (args files : list string),
    args <> [] ->
    fst (Cli.discoverFiles "." {| globals := Cli.zero; world := w |}) = Ok (files, Nil) ->
    ran (world (snd (Cli.main ("invoke" :: args) {| globals := Cli.zero; world := w |}))) =
      app (ran w)
          [Command "bash" ["-c"; "az aks command invoke   " ++ Strings.Join args " " ++
                                 flatten (map file_token files)]].
Proof.
  intros w args files A D.
  set (st := {| globals := Cli.zero; world := w |}) in *.
  rewrite discoverFiles_run in D. cbn [fst] in D. injection D as D.
  destruct (invokeRun_discovered args st D) as (R & F & _).
  destruct (Cli.main ("invoke" :: args) st) as [res st2] eqn:M.
  unfold Cli.main, Cli.Execute in M. cbn [String.eqb Ascii.eqb Bool.eqb] in M.
  destruct args as [|a args]; [now elim A|]. cbn [List.length Nat.leb] in M.
  unfold bind at 1 in M.
  destruct (Cli.invokeRun (a :: args) st) as [r st1]. cbn [fst snd] in R, F. subst r.
  destruct (is_nil (snd (proc _ _ _))) in M; cbn [is_nil negb] in M; run_monad;
    injection M as <- <-; cbn [snd world ran]; rewrite R;
    unfold Cli.fullCommand_of; rewrite fileParams_flatten; reflexivity.
Qed.

(** RESOURCEGROUP and AKSNAME set in the environment change nothing. *)
Definition with_cluster_variables : World :=
  a_world [("RESOURCEGROUP", "rg"); ("AKSNAME", "aks")] two_files quiet.

Lemma X10_cluster_variables_unread :
  ran (world (snd (Cli.main ("invoke" :: ["kubectl"; "apply"])
                            {| globals := Cli.zero; world := with_cluster_variables |}))) =
  app (ran with_cluster_variables)
      [Command "bash" ["-c"; "az aks command invoke   " ++
                             Strings.Join ["kubectl"; "apply"] " " ++
                             flatten (map file_token ["a.txt"; "b.yaml"])]].
Proof.
  assert (N : ["kubectl"; "apply"] <> @nil string) by discriminate.
  exact (X10_fresh_process_names_no_cluster with_cluster_variables N eq_refl).
Defined.

(** ** The SDK variant: the session *)

(** X11: before the process has logged in, setSubscription and
    getSubscription both answer an error, and setSubscription changes
    nothing: the subscription cannot be set or read.  Once logged in,
    setSubscription fails only when the client cannot be created, and then
    too it prints nothing and leaves the subscription as it was. *)
Theorem X11_session_guard :
  forall (id : string) (st : State Sdk.Globals),
    fst (Sdk.setSubscription id st) =
      Ok (if Sdk.loggedIn (globals st)
          then if is_nil (sdkClient (world st)) then Nil
               else Wrapf "failed to create subscriptions client: " (sdkClient (world st)) ""
          else Errorf "not authenticated - cannot set subscription") /\
    (Sdk.loggedIn (globals st) && is_nil (sdkClient (world st)) = false ->
     snd (Sdk.setSubscription id st) = st) /\
    Sdk.getSubscription st =
      (Ok (if Sdk.loggedIn (globals st) then (Sdk.currentSubID (globals st), Nil)
           else (EmptyString, Errorf "not authenticated - no subscription is set")), st).
Proof.
  intros id st.
  destruct (Sdk.setSubscription id st) as [res st'] eqn:S.
  unfold Sdk.setSubscription, Sdk.set_currentSubID in S. unfold Sdk.getSubscription.
  run_monad.
  destruct (Sdk.loggedIn (globals st)); cbn [negb andb] in *.
  - destruct (is_nil (sdkClient (world st))); cbn [negb] in S; injection S as <- <-;
      cbn [fst snd]; repeat split; discriminate.
  - injection S as <- <-. cbn [fst snd]. repeat split.
Qed.

Lemma X11_before_login :
  snd (Sdk.setSubscription "sub-1"
         {| globals := Sdk.zero; world := a_world [] empty_directory quiet |})
  = {| globals := Sdk.zero; world := a_world [] empty_directory quiet |}.
Proof.
  exact (proj1 (proj2 (X11_session_guard "sub-1"
                         {| globals := Sdk.zero;
                            world := a_world [] empty_directory quiet |})) eq_refl).
Defined.

(** X12: when authenticate succeeds, the process is logged in and the
    subscription is the value of AZURE_SUBSCRIPTION, whatever it was
    before: a subscription set earlier in the process is replaced, and
    getSubscription answers the value of the variable, the empty string
    when the variable is not set. *)
Theorem X12_authenticate_takes_the_subscription_of_the_environment :
  forall (st : State Sdk.Globals),
    fst (Sdk.authenticate st) = Ok Nil ->
    let after := snd (Sdk.authenticate st) in
    Sdk.loggedIn (globals after) = true /\
    Sdk.currentSubID (globals after) = lookup_env "AZURE_SUBSCRIPTION" (environ (world st)) /\
    Sdk.getSubscription after =
      (Ok (lookup_env "AZURE_SUBSCRIPTION" (environ (world st)), Nil), after).
Proof.
  intros st A after. subst after.
  destruct (Sdk.authenticate st) as [res st'] eqn:E. cbn [fst snd] in *. subst res.
  unfold Sdk.authenticate, Sdk.set_loggedIn, Sdk.set_currentSubID in E. run_monad.
  destruct (_ || _) in E; [discriminate E|].
  destruct (is_nil (sdkLogin _ _ _ _)) in E; cbn [negb] in E; [|discriminate E].
  injection E as <-. unfold Sdk.getSubscription. run_monad. cbn. auto.
Qed.

(** A process that had a subscription set and authenticates again. *)
Definition authenticating_again : State Sdk.Globals :=
  {| globals := {| Sdk.loggedIn := true; Sdk.currentSubID := "sub-set-by-hand" |};
     world := a_world [("AZURE_APP_ID", "app"); ("AZURE_CLIENT_SECRET", "s3cret");
                       ("AZURE_TENANT_ID", "tenant"); ("AZURE_SUBSCRIPTION", "sub-env")]
                      empty_directory quiet |}.

Lemma X12_authenticating_again :
  Sdk.currentSubID (globals (snd (Sdk.authenticate authenticating_again))) = "sub-env".
Proof.
  exact (proj1 (proj2 (X12_authenticate_takes_the_subscription_of_the_environment
                         authenticating_again eq_refl))).
Defined.

(** X13: when authenticate fails (a variable missing, or the SDK refusing
    the credentials), main logs one entry and ends the process with
    status 1: no status is printed, no command is run, no global is
    assigned. *)
Theorem X13_main_stops_when_authenticate_fails :
  forall (cli : option (string -> string -> Sdk.Invocation)) (st : State Sdk.Globals)
         (err : error),
    fst (Sdk.authenticate st) = Ok err ->
    is_nil err = false ->
    exists st',
      Sdk.main cli st = (Exit 1, st') /\
      globals st' = globals st /\
      ran (world st') = ran (world st) /\
      (exists logged, stderr (world st') = app (stderr (world st)) [logged]) /\
      (forall text, In text (stdout (world st')) ->
                    In text (stdout (world st)) \/
                    text = "Warning: RESOURCEGROUP and AKSNAME environment variables not set."
                           ++ nl \/
                    text = "Using empty values, which will likely result in errors." ++ nl).
Proof.
  intros cli st err A N.
  destruct (Sdk.authenticate st) as [res st1] eqn:E. cbn [fst] in A. subst res.
  unfold Sdk.authenticate, Sdk.set_loggedIn, Sdk.set_currentSubID in E.
  destruct (Sdk.main cli st) as [r st2] eqn:M.
  unfold Sdk.main, Sdk.authenticate, Sdk.set_loggedIn, Sdk.set_currentSubID in M.
  run_monad.
  destruct ((lookup_env "RESOURCEGROUP" (environ (world st)) =? "") ||
            (lookup_env "AKSNAME" (environ (world st)) =? "")) in M;
    cbn [globals world environ sdkLogin sdkClient stdout] in M;
    (destruct (_ || _) in E, M;
     [ injection E as <- <-; cbn [is_nil negb] in M; injection M as <- <-
     | destruct (is_nil (sdkLogin _ _ _ _)) in E, M; cbn [negb] in E, M;
       [ injection E as <- <-; discriminate N
       | injection E as <- <-; cbn [is_nil negb] in M; injection M as <- <- ] ]);
    eexists; (split; [reflexivity|]); cbn [globals world ran stderr stdout];
    (split; [reflexivity|]); (split; [reflexivity|]); (split; [eexists; reflexivity|]);
    intros text I; rewrite ?in_app_iff in I; cbn [In] in I; intuition auto.
Qed.

Lemma X13_no_credentials :
  exists st',
    Sdk.main None {| globals := Sdk.zero; world := a_world [] empty_directory quiet |}
      = (Exit 1, st') /\
    globals st' = Sdk.zero /\
    ran (world st') = [] /\
    (exists logged, stderr (world st') = app [] [logged]) /\
    (forall text,
        In text (stdout (world st')) ->
        In text [] \/
        text = "Warning: RESOURCEGROUP and AKSNAME environment variables not set." ++ nl \/
        text = "Using empty values, which will likely result in errors." ++ nl).
Proof.
  exact (X13_main_stops_when_authenticate_fails None
           {| globals := Sdk.zero; world := a_world [] empty_directory quiet |}
           eq_refl eq_refl).
Defined.

(** X14: when main of the SDK variant gets as far as its status, the
    subscription in the status is the value of AZURE_SUBSCRIPTION, set or
    not: with the variable empty main sets nothing and the status shows an
    empty subscription. *)
Theorem X14_main_status_is_the_variable :
  forall (st : State Sdk.Globals),
    let env := environ (world st) in
    lookup_env "AZURE_APP_ID" env <> EmptyString ->
    lookup_env "AZURE_CLIENT_SECRET" env <> EmptyString ->
    lookup_env "AZURE_TENANT_ID" env <> EmptyString ->
    sdkLogin (world st) (lookup_env "AZURE_APP_ID" env) (lookup_env "AZURE_CLIENT_SECRET" env)
             (lookup_env "AZURE_TENANT_ID" env) = Nil ->
    (lookup_env "AZURE_SUBSCRIPTION" env <> EmptyString -> sdkClient (world st) = Nil) ->
    fst (Sdk.main None st) = Ok tt /\
    last (stdout (world (snd (Sdk.main None st)))) EmptyString =
      "Current Status:" ++ nl ++ "  Logged In: true" ++ nl ++
      "  Subscription ID: " ++ lookup_env "AZURE_SUBSCRIPTION" env ++ nl.
Proof.
  intros st env A B C L K.
  destruct (String.eqb_spec (lookup_env "AZURE_SUBSCRIPTION" env) EmptyString) as [O|O].
  - apply String.eqb_neq in A, B, C.
    destruct (Sdk.main None st) as [res st'] eqn:R.
    unfold Sdk.main, Sdk.authenticate, Sdk.setSubscription, Sdk.getSubscription,
      Sdk.set_loggedIn, Sdk.set_currentSubID in R.
    run_monad. fold env in R.
    destruct ((lookup_env "RESOURCEGROUP" env =? "") || (lookup_env "AKSNAME" env =? "")) in R;
      cbn [globals world environ sdkLogin sdkClient stdout] in R; fold env in R;
      rewrite A, B, C in R; cbn [orb] in R;
      cbn [globals world environ sdkLogin sdkClient stdout] in R; fold env in R;
      rewrite L in R; cbn [is_nil negb] in R;
      cbn [globals world environ sdkLogin sdkClient stdout] in R; fold env in R;
      rewrite O in R;
      cbn [String.eqb is_nil negb Sdk.loggedIn Sdk.currentSubID globals world stdout] in R;
      injection R as <- <-; cbn [fst snd world stdout];
      (split; [reflexivity|]); rewrite ?last_last, ?O; reflexivity.
  - exact (@Sdk_main_status st (lookup_env "AZURE_SUBSCRIPTION" env)
                            A B C L (K O) eq_refl O).
Qed.

(** The credentials set, AZURE_SUBSCRIPTION not. *)
Definition without_subscription : State Sdk.Globals :=
  {| globals := Sdk.zero;
     world := a_world [("AZURE_APP_ID", "app"); ("AZURE_CLIENT_SECRET", "s3cret");
                       ("AZURE_TENANT_ID", "tenant")] empty_directory quiet |}.

Lemma X14_without_subscription :
  fst (Sdk.main None without_subscription) = Ok tt /\
  last (stdout (world (snd (Sdk.main None without_subscription)))) EmptyString =
    "Current Status:" ++ nl ++ "  Logged In: true" ++ nl ++
    "  Subscription ID: " ++
    lookup_env "AZURE_SUBSCRIPTION" (environ (world without_subscription)) ++ nl.
Proof.
  assert (N : forall s : string, String "a" s <> EmptyString) by discriminate.
  assert (S : forall s : string, String "s" s <> EmptyString) by discriminate.
  assert (T : forall s : string, String "t" s <> EmptyString) by discriminate.
  exact (X14_main_status_is_the_variable without_subscription
           (N _) (S _) (T _) eq_refl (fun _ => eq_refl)).
Defined.

(** ** The SDK variant: the invoke hook *)

(** X15: the builder of executeAzAksCommand and the [+=] of the invoke
    command of the CLI variant hold the same text for every list of
    files. *)
Theorem X15_the_two_accumulators_agree :
  forall (files : list string), Sdk.fileParams_of files = Cli.fileParams_of files.
Proof.
  intros files. now rewrite Sdk_fileParams_flatten, fileParams_flatten.
Qed.

(** The override of an invocation is empty or can be set. *)
Definition override_can_be_set (inv : Sdk.Invocation) (st : State Sdk.Globals) : Prop :=
  Sdk.flag_subscription inv = EmptyString \/
  (Sdk.loggedIn (globals st) = true /\ sdkClient (world st) = Nil).

Section Hook.

(** The first step of the hook, when the override is empty or can be
    set. *)
Lemma hook_override (inv : Sdk.Invocation) (st : State Sdk.Globals) :
  override_can_be_set inv st ->
  exists st1,
    (if negb (Sdk.flag_subscription inv =? "")
     then Sdk.setSubscription (Sdk.flag_subscription inv) else ret Nil) st = (Ok Nil, st1) /\
    Sdk.currentSubID (globals st1) =
      (if Sdk.flag_subscription inv =? "" then Sdk.currentSubID (globals st)
       else Sdk.flag_subscription inv) /\
    Sdk.loggedIn (globals st1) = Sdk.loggedIn (globals st) /\
    ran (world st1) = ran (world st) /\
    tree_at (world st1) = tree_at (world st) /\
    proc (world st1) = proc (world st).
Proof.
  intros H. destruct (Sdk.flag_subscription inv =? "") eqn:F; cbn [negb].
  - exists st. unfold ret. auto 10.
  - destruct H as [H|[L K]]; [apply String.eqb_neq in F; now elim F|].
    unfold Sdk.setSubscription, Sdk.set_currentSubID. run_monad.
    rewrite L. cbn [negb]. rewrite K. cbn [negb is_nil].
    eexists. split; [reflexivity|]. cbn. auto 10.
Qed.

End Hook.

(** X16: the hook of the invoke command sets the override before it looks
    at the directory: when the directory cannot be listed the hook answers
    the error of the listing, wrapped once, and runs no command, but the
    subscription of the process is the override already. *)
Theorem X16_failed_listing_keeps_the_override :
  forall (inv : Sdk.Invocation) (st : State Sdk.Globals),
    Sdk.loggedIn (globals st) = true ->
    sdkClient (world st) = Nil ->
    Sdk.flag_subscription inv <> EmptyString ->
    is_nil (snd (ReadDir "." (tree_at (world st) "."))) = false ->
    exists st',
      Sdk.invokePreExecute inv st =
        (Ok (Wrapf "failed to discover files: "
                   (snd (ReadDir "." (tree_at (world st) "."))) ""), st') /\
      ran (world st') = ran (world st) /\
      Sdk.currentSubID (globals st') = Sdk.flag_subscription inv.
Proof.
  intros inv st L K F D.
  destruct (@hook_override inv st (or_intror (conj L K))) as (st1 & S & C & _ & R & T & _).
  apply String.eqb_neq in F. rewrite F in C.
  exists st1. unfold Sdk.invokePreExecute. unfold bind at 1. rewrite S.
  cbn [is_nil negb]. unfold Sdk.discoverFiles. run_monad. rewrite T.
  destruct (ReadDir "." (tree_at (world st) ".")) as [entries err]. cbn [snd] in D.
  rewrite D. cbn [negb is_nil snd]. rewrite D. cbn [negb]. auto.
Qed.

(** A process that is logged in, in a directory that cannot be read. *)
Definition in_unreadable_directory : State Sdk.Globals :=
  {| globals := {| Sdk.loggedIn := true; Sdk.currentSubID := "sub-0" |};
     world := a_world [] (Dir (Some EACCES) []) quiet |}.

Definition with_override : Sdk.Invocation :=
  {| Sdk.flag_resource_group := "rg"; Sdk.flag_name := "aks";
     Sdk.flag_subscription := "sub-1"; Sdk.positional := ["kubectl"; "get"; "pods"] |}.

Lemma X16_unreadable_directory :
  exists st',
    Sdk.invokePreExecute with_override in_unreadable_directory =
      (Ok (Wrapf "failed to discover files: "
                 (snd (ReadDir "." (tree_at (world in_unreadable_directory) "."))) ""), st') /\
    ran (world st') = ran (world in_unreadable_directory) /\
    Sdk.currentSubID (globals st') = Sdk.flag_subscription with_override.
Proof.
  assert (N : Sdk.flag_subscription with_override <> EmptyString) by discriminate.
  exact (X16_failed_listing_keeps_the_override with_override in_unreadable_directory
           eq_refl eq_refl N eq_refl).
Defined.

(** X17: when the override is empty or can be set and the directory can
    be read, the hook hands one command line to the shell: the prefix, the
    arguments joined by spaces, the two flags with the resource group and
    the cluster name, and one token for each direct entry that is not a
    directory.  The subscription is no part of it: the override changes the
    subscription of the process and nothing of the command. *)
Theorem X17_the_override_is_not_in_the_command :
  forall (inv : Sdk.Invocation) (st : State Sdk.Globals) (entries : list (string * Entry)),
    override_can_be_set inv st ->
    tree_at (world st) "." = Dir None entries ->
    let files := map (fun ne => Filepath.Join "." (fst ne))
                     (filter not_a_directory (Filepath.sort_by_name entries)) in
    let line := "az aks command invoke " ++ Strings.Join (Sdk.positional inv) " " ++
                " --resource-group " ++ Sdk.flag_resource_group inv ++
                " --name " ++ Sdk.flag_name inv ++ " " ++ flatten (map file_token files) in
    let after := snd (Sdk.invokePreExecute inv st) in
    ran (world after) = app (ran (world st)) [Command "bash" ["-c"; line]] /\
    Sdk.currentSubID (globals after) =
      (if Sdk.flag_subscription inv =? "" then Sdk.currentSubID (globals st)
       else Sdk.flag_subscription inv).
Proof.
  intros inv st entries H T files line after. subst after.
  destruct (hook_override H) as (st1 & S & C & _ & R & Tr & P).
  destruct (Sdk.invokePreExecute inv st) as [res st2] eqn:E.
  unfold Sdk.invokePreExecute in E. unfold bind at 1 in E. rewrite S in E.
  cbn [is_nil negb] in E. unfold bind at 1 in E.
  rewrite (@Sdk_discoverFiles_run "." st1 entries) in E by (now rewrite Tr).
  cbn [is_nil negb] in E. fold files in E.
  unfold Sdk.executeAzAksCommand, Sdk.fullCommand_of in E. rewrite Sdk_fileParams_flatten in E.
  fold line in E. run_monad.
  destruct (proc (world st1) (ran (world st1)) _) as [output err] in E.
  destruct (is_nil err); cbn [negb] in E; injection E as <- <-;
    cbn [snd globals world ran]; rewrite R, C; auto.
Qed.

(** Two invocations that differ in the override only. *)
Definition without_override : Sdk.Invocation :=
  {| Sdk.flag_resource_group := "rg"; Sdk.flag_name := "aks";
     Sdk.flag_subscription := EmptyString; Sdk.positional := ["kubectl"; "get"; "pods"] |}.

Definition authenticated_in_two_files : State Sdk.Globals :=
  {| globals := {| Sdk.loggedIn := true; Sdk.currentSubID := "sub-0" |};
     world := a_world [] two_files quiet |}.

Lemma X17_same_command_with_and_without_override :
  ran (world (snd (Sdk.invokePreExecute with_override authenticated_in_two_files))) =
  ran (world (snd (Sdk.invokePreExecute without_override authenticated_in_two_files))).
Proof.
  pose proof (@X17_the_override_is_not_in_the_command with_override
                authenticated_in_two_files _ (or_intror (conj eq_refl eq_refl)) eq_refl) as A.
  pose proof (@X17_the_override_is_not_in_the_command without_override
                authenticated_in_two_files _ (or_introl eq_refl) eq_refl) as B.
  exact (eq_trans (proj1 A) (eq_sym (proj1 B))).
Defined.

(** ** The CLI variant: the sub command *)

(** X18: the sub command hands the subscription to the CLI as one
    argument of its own, as it was typed, and keeps nothing of it in the
    process.  When the CLI accepts it, the confirmation is printed twice
    (by setSubscription and by the command) and main ends normally; when
    the CLI refuses, main logs one entry, prints nothing, and ends with
    status 1. *)
Theorem X18_sub_command :
  forall (id : string) (st : State Cli.Globals),
    let set := Command "az" ["account"; "set"; "--subscription"; id] in
    let answer := proc (world st) (ran (world st)) set in
    let after := snd (Cli.main ["sub"; id] st) in
    fst (Cli.main ["sub"; id] st) = (if is_nil (snd answer) then Ok tt else Exit 1) /\
    globals after = globals st /\
    ran (world after) = app (ran (world st)) [set] /\
    stdout (world after) =
      app (stdout (world st))
          (if is_nil (snd answer)
           then ["Set active subscription to: " ++ id ++ nl;
                 "Set active subscription to: " ++ id ++ nl]
           else []) /\
    exists logged,
      stderr (world after) =
        app (stderr (world st)) (if is_nil (snd answer) then [] else [logged]).
Proof.
  intros id st set answer after. subst after.
  destruct (Cli.main ["sub"; id] st) as [res st'] eqn:M.
  unfold Cli.main, Cli.Execute, Cli.subRun, Cli.setSubscription in M.
  cbn [String.eqb Ascii.eqb Bool.eqb List.length Nat.eqb nth_error] in M.
  run_monad. fold set in M. fold answer in M.
  destruct answer as [output err]. cbn [fst snd].
  destruct (is_nil err) eqn:N; cbn [negb is_nil] in M.
  - injection M as <- <-. cbn [fst snd globals world ran stdout stderr].
    do 3 (split; [reflexivity|]).
    split; [now rewrite <- app_assoc|].
    exists EmptyString. now rewrite app_nil_r.
  - injection M as <- <-. cbn [fst snd globals world ran stdout stderr].
    do 3 (split; [reflexivity|]).
    split; [now rewrite app_nil_r|].
    eexists. reflexivity.
Qed.

(** A subscription name with a space and a quote in it stays one
    argument. *)
Example sub_keeps_the_argument :
  map argv (ran (world (snd (Cli.main ["sub"; "My " ++ dquote ++ "Dev" ++ dquote ++ " sub"]
                                      {| globals := Cli.zero;
                                         world := a_world [] empty_directory quiet |})))) =
  [["az"; "account"; "set"; "--subscription"; "My " ++ dquote ++ "Dev" ++ dquote ++ " sub"]].
Proof. vm_compute. reflexivity. Qed.

(** ** The variant with no commands: its credentials *)

(** The variant between the two copies of the CLI variant.  Its
    loadCredentials assigns the three globals (no [:=]) and its
    authenticate is the one of the CLI variant; its setSubscription assigns
    names the file does not declare, so that function and the main that
    calls it are not modelled. *)
Module Plain.

Record Globals := {
  appID : string;
  clientSecret : string;
  tenantID : string;
  loggedIn : bool;
  subscriptionID : string;
  resourceGroup : string;
  aksName : string
}.

Definition zero : Globals :=
  {| appID := EmptyString; clientSecret := EmptyString; tenantID := EmptyString;
     loggedIn := false; subscriptionID := EmptyString;
     resourceGroup := EmptyString; aksName := EmptyString |}.

Definition set_appID (s : string) : M Globals unit :=
  g <- getGlobals ;;
  setGlobals {| appID := s; clientSecret := clientSecret g; tenantID := tenantID g;
                loggedIn := loggedIn g; subscriptionID := subscriptionID g;
                resourceGroup := resourceGroup g; aksName := aksName g |}.

Definition set_clientSecret (s : string) : M Globals unit :=
  g <- getGlobals ;;
  setGlobals {| appID := appID g; clientSecret := s; tenantID := tenantID g;
                loggedIn := loggedIn g; subscriptionID := subscriptionID g;
                resourceGroup := resourceGroup g; aksName := aksName g |}.

Definition set_tenantID (s : string) : M Globals unit :=
  g <- getGlobals ;;
  setGlobals {| appID := appID g; clientSecret := clientSecret g; tenantID := s;
                loggedIn := loggedIn g; subscriptionID := subscriptionID g;
                resourceGroup := resourceGroup g; aksName := aksName g |}.

Definition set_loggedIn (b : bool) : M Globals unit :=
  g <- getGlobals ;;
  setGlobals {| appID := appID g; clientSecret := clientSecret g; tenantID := tenantID g;
                loggedIn := b; subscriptionID := subscriptionID g;
                resourceGroup := resourceGroup g; aksName := aksName g |}.

(** loadCredentials: the three globals are assigned, then tested. *)
Definition loadCredentials : M Globals error :=
  v <- Getenv "AZURE_APP_ID" ;; set_appID v ;;;
  v <- Getenv "AZURE_CLIENT_SECRET" ;; set_clientSecret v ;;;
  v <- Getenv "AZURE_TENANT_ID" ;; set_tenantID v ;;;
  g <- getGlobals ;;
  if (appID g =? "") || (clientSecret g =? "") || (tenantID g =? "") then
    ret (Errorf "missing required environment variables: AZURE_APP_ID, AZURE_CLIENT_SECRET, AZURE_TENANT_ID")
  else
    Println "Loaded credentials from environment variables" ;;;
    ret Nil.

(** authenticate. *)
Definition authenticate : M Globals error :=
  err <- loadCredentials ;;
  if negb (is_nil err) then
    ret (Wrapf "failed to load credentials: " err "")
  else
    Println "Authenticating..." ;;;
    env <- Environ ;;
    g <- getGlobals ;;
    let cmd := {| argv := ["az"; "login"; "--service-principal"; "-i"];
                  cmdEnv := Some (app env ["AZURE_APP_ID=" ++ appID g;
                                           "AZURE_CLIENT_SECRET=" ++ clientSecret g;
                                           "AZURE_TENANT_ID=" ++ tenantID g]) |} in
    '(output, err) <- CombinedOutput cmd ;;
    if negb (is_nil err) then
      ret (Wrapf "authentication failed: " err (nl ++ "Output:" ++ nl ++ output))
    else
      Println "Authenticated successfully!" ;;;
      set_loggedIn true ;;;
      ret Nil.

End Plain.

(** X19: in the variant that assigns the globals, loadCredentials leaves
    the three credentials of the environment in the globals whether it
    answers nil or the error, so a variable that is missing empties its
    global; and when the three are there, the login command of authenticate
    gets them after the environment of the process. *)
Theorem X19_plain_loadCredentials_assigns :
  forall (st : State Plain.Globals),
    let env := environ (world st) in
    let after := globals (snd (Plain.loadCredentials st)) in
    Plain.appID after = lookup_env "AZURE_APP_ID" env /\
    Plain.clientSecret after = lookup_env "AZURE_CLIENT_SECRET" env /\
    Plain.tenantID after = lookup_env "AZURE_TENANT_ID" env /\
    Plain.loggedIn after = Plain.loggedIn (globals st) /\
    fst (Plain.loadCredentials st) =
      Ok (if credentials_complete (world st) then Nil else missing_credentials) /\
    (credentials_complete (world st) = true ->
     ran (world (snd (Plain.authenticate st))) =
       app (ran (world st))
           [{| argv := ["az"; "login"; "--service-principal"; "-i"];
               cmdEnv := Some (app (map (fun kv => fst kv ++ "=" ++ snd kv) env)
                                   ["AZURE_APP_ID=" ++ lookup_env "AZURE_APP_ID" env;
                                    "AZURE_CLIENT_SECRET=" ++
                                      lookup_env "AZURE_CLIENT_SECRET" env;
                                    "AZURE_TENANT_ID=" ++ lookup_env "AZURE_TENANT_ID" env]) |}]).
Proof.
  intros st env after. subst after.
  destruct (Plain.loadCredentials st) as [res st1] eqn:L.
  destruct (Plain.authenticate st) as [res2 st2] eqn:A.
  unfold Plain.authenticate in A. unfold bind at 1 in A. rewrite L in A.
  unfold Plain.loadCredentials, Plain.set_appID, Plain.set_clientSecret,
    Plain.set_tenantID in L.
  run_monad.
  cbn [Plain.appID Plain.clientSecret Plain.tenantID Plain.loggedIn] in L.
  fold env in L. unfold credentials_complete. fold env.
  destruct ((lookup_env "AZURE_APP_ID" env =? "") ||
            (lookup_env "AZURE_CLIENT_SECRET" env =? "") ||
            (lookup_env "AZURE_TENANT_ID" env =? "")).
  - injection L as <- <-. cbn. repeat split. discriminate.
  - injection L as <- <-. cbn [fst snd globals Plain.appID Plain.clientSecret
                                 Plain.tenantID Plain.loggedIn negb].
    repeat split. intros _.
    cbn [is_nil negb] in A. unfold Plain.set_loggedIn in A. run_monad.
    cbn [Plain.appID Plain.clientSecret Plain.tenantID] in A. fold env in A.
    destruct (proc (world st) (ran (world st)) _) as [output err] in A.
    destruct (is_nil err); cbn [negb] in A; injection A as <- <-; reflexivity.
Qed.

(** A process whose globals hold credentials, in an environment that has
    lost the secret. *)
Definition secret_lost : State Plain.Globals :=
  {| globals := {| Plain.appID := "app"; Plain.clientSecret := "s3cret";
                   Plain.tenantID := "tenant"; Plain.loggedIn := true;
                   Plain.subscriptionID := EmptyString;
                   Plain.resourceGroup := EmptyString; Plain.aksName := EmptyString |};
     world := a_world [("AZURE_APP_ID", "app"); ("AZURE_TENANT_ID", "tenant")]
                      empty_directory quiet |}.

Example the_secret_is_emptied :
  fst (Plain.loadCredentials secret_lost) = Ok missing_credentials /\
  Plain.clientSecret (globals (snd (Plain.loadCredentials secret_lost))) = EmptyString.
Proof. vm_compute. split; reflexivity. Qed.

(** The three variables set, the globals still empty. *)
Definition plain_with_credentials : State Plain.Globals :=
  {| globals := Plain.zero;
     world := a_world [("AZURE_APP_ID", "app"); ("AZURE_CLIENT_SECRET", "s3cret");
                       ("AZURE_TENANT_ID", "tenant")] empty_directory quiet |}.

Lemma X19_login_gets_the_credentials :
  map cmdEnv (ran (world (snd (Plain.authenticate plain_with_credentials)))) =
  [Some ["AZURE_APP_ID=app"; "AZURE_CLIENT_SECRET=s3cret"; "AZURE_TENANT_ID=tenant";
         "AZURE_APP_ID=app"; "AZURE_CLIENT_SECRET=s3cret"; "AZURE_TENANT_ID=tenant"]].
Proof.
  exact (f_equal (map cmdEnv)
           (proj2 (proj2 (proj2 (proj2 (proj2
              (X19_plain_loadCredentials_assigns plain_with_credentials))))) eq_refl)).
Defined.
